(** * Camera: pose, intrinsics, path resolution and depth unprojection

    A shallow embedding of [photogrammetry_importer/types/camera.py].

    Numbers.  The Python code computes with IEEE doubles (numpy float64
    arrays and Python floats).  The embedding reads every such number as a
    real number of the Standard Library: rounding is not modelled, and the
    statements below are about exact arithmetic.  Where the Python code can
    produce an IEEE infinity or NaN (a numpy division by zero), the embedding
    returns the outcome [Unmodelled] instead of inventing a real number.

    Effects.  Setters run in a small state-and-exception monad over the
    [Camera] record, so that the state reached by a failing call is
    visible; getters only read the state and return a [result]. *)

From Stdlib Require Import Reals Lra Lia ZArith List String Ascii Bool Arith.
From Stdlib Require Import Psatz RNsatz.
Import ListNotations.

Local Open Scope R_scope.

(** ** Comparisons on floats, as booleans *)

Definition Rltb (x y : R) : bool := if Rlt_dec x y then true else false.
Definition Rleb (x y : R) : bool := if Rle_dec x y then true else false.

(** [numpy.isclose(a, b)] with its default tolerances
    [rtol = 1e-05] and [atol = 1e-08]:
    [absolute(a - b) <= atol + rtol * absolute(b)]. *)
Definition np_rtol : R := 1 / 100000.
Definition np_atol : R := 1 / 100000000.
Definition np_isclose (a b : R) : bool :=
  Rleb (Rabs (a - b)) (np_atol + np_rtol * Rabs b).

(** ** Vectors, matrices, quaternions *)

Record vec3 := Vec3 { v0 : R; v1 : R; v2 : R }.
Record vec4 := Vec4 { h0 : R; h1 : R; h2 : R; h3 : R }.

(** A 3x3 array; field [mij] is the entry [m[i][j]]. *)
Record mat3 := Mat3 {
  m00 : R; m01 : R; m02 : R;
  m10 : R; m11 : R; m12 : R;
  m20 : R; m21 : R; m22 : R }.

(** A 4x4 array given by its rows. *)
Record mat4 := Mat4 { row0 : vec4; row1 : vec4; row2 : vec4; row3 : vec4 }.

(** A quaternion [q], with [qw = q[0]], [qx = q[1]], [qy = q[2]],
    [qz = q[3]]. *)
Record quat := Quat { qw : R; qx : R; qy : R; qz : R }.

Definition vec3_zero : vec3 := Vec3 0 0 0.
Definition mat3_zeros : mat3 := Mat3 0 0 0 0 0 0 0 0 0.
Definition mat3_identity : mat3 := Mat3 1 0 0 0 1 0 0 0 1.

Definition vec3_neg (v : vec3) : vec3 := Vec3 (- v0 v) (- v1 v) (- v2 v).

Definition vec3_scale (d : R) (v : vec3) : vec3 :=
  Vec3 (v0 v * d) (v1 v * d) (v2 v * d).

(** [m.transpose()] *)
Definition transpose (m : mat3) : mat3 :=
  Mat3 (m00 m) (m10 m) (m20 m)
       (m01 m) (m11 m) (m21 m)
       (m02 m) (m12 m) (m22 m).

(** [np.dot(m, v)] for a 3x3 array and a 3-vector *)
Definition np_dot (m : mat3) (v : vec3) : vec3 :=
  Vec3 (m00 m * v0 v + m01 m * v1 v + m02 m * v2 v)
       (m10 m * v0 v + m11 m * v1 v + m12 m * v2 v)
       (m20 m * v0 v + m21 m * v1 v + m22 m * v2 v).

(** [np.dot(a, b)] for two 3x3 arrays *)
Definition mat3_mul (a b : mat3) : mat3 :=
  Mat3 (m00 a * m00 b + m01 a * m10 b + m02 a * m20 b)
       (m00 a * m01 b + m01 a * m11 b + m02 a * m21 b)
       (m00 a * m02 b + m01 a * m12 b + m02 a * m22 b)
       (m10 a * m00 b + m11 a * m10 b + m12 a * m20 b)
       (m10 a * m01 b + m11 a * m11 b + m12 a * m21 b)
       (m10 a * m02 b + m11 a * m12 b + m12 a * m22 b)
       (m20 a * m00 b + m21 a * m10 b + m22 a * m20 b)
       (m20 a * m01 b + m21 a * m11 b + m22 a * m21 b)
       (m20 a * m02 b + m21 a * m12 b + m22 a * m22 b).

(** [np.linalg.det] of a 3x3 array, read as the exact determinant. *)
Definition np_linalg_det (m : mat3) : R :=
  m00 m * (m11 m * m22 m - m12 m * m21 m)
  - m01 m * (m10 m * m22 m - m12 m * m20 m)
  + m02 m * (m10 m * m21 m - m11 m * m20 m).

Definition trace (m : mat3) : R := m00 m + m11 m + m22 m.

(** [M.dot(v)] for a 4x4 array and a homogeneous 4-vector *)
Definition vec4_dot (r v : vec4) : R :=
  h0 r * h0 v + h1 r * h1 v + h2 r * h2 v + h3 r * h3 v.
Definition mat4_dot (m : mat4) (v : vec4) : vec4 :=
  Vec4 (vec4_dot (row0 m) v) (vec4_dot (row1 m) v)
       (vec4_dot (row2 m) v) (vec4_dot (row3 m) v).

(** A row of [np.delete(a, 3, 1)]: the homogeneous entry is dropped. *)
Definition drop_hom (v : vec4) : vec3 := Vec3 (h0 v) (h1 v) (h2 v).

(** ** Rotation matrices and quaternions (static methods) *)

(** [is_rotation_mat_valid]: only the determinant is tested. *)
Definition is_rotation_mat_valid (some_mat : mat3) : bool :=
  let det := np_linalg_det some_mat in
  np_isclose det 1 || np_isclose det (-1).

Definition quaternion_to_rotation_matrix (q : quat) : mat3 :=
  let qq := sqrt (qw q * qw q + qx q * qx q + qy q * qy q + qz q * qz q) in
  let '(w, x, y, z) :=
    if Rltb 0 qq
    then (qw q / qq, qx q / qq, qy q / qq, qz q / qq)
    else (1, 0, 0, 0) in
  Mat3 (w * w + x * x - z * z - y * y)
       (2 * x * y - 2 * z * w)
       (2 * y * w + 2 * z * x)
       (2 * x * y + 2 * w * z)
       (y * y + w * w - z * z - x * x)
       (2 * z * y - 2 * x * w)
       (2 * x * z - 2 * y * w)
       (2 * y * z + 2 * w * x)
       (z * z + w * w - y * y - x * x).

(** The threshold [0.000000001] of [rotation_matrix_to_quaternion]. *)
Definition trace_eps : R := 1 / 1000000000.

Definition rotation_matrix_to_quaternion (m : mat3) : quat :=
  let t := 1 + m00 m + m11 m + m22 m in
  if Rltb trace_eps t then
    let w := sqrt t / 2 in
    Quat w
         ((m21 m - m12 m) / (4 * w))
         ((m02 m - m20 m) / (4 * w))
         ((m10 m - m01 m) / (4 * w))
  else if Rltb (m11 m) (m00 m) && Rltb (m22 m) (m00 m) then
    let s := 2 * sqrt (1 + m00 m - m11 m - m22 m) in
    Quat ((m12 m - m21 m) / s)
         (0.25 * s)
         ((m01 m + m10 m) / s)
         ((m02 m + m20 m) / s)
  else if Rltb (m22 m) (m11 m) then
    let s := 2 * sqrt (1 + m11 m - m00 m - m22 m) in
    Quat ((m02 m - m20 m) / s)
         ((m01 m + m10 m) / s)
         (0.25 * s)
         ((m12 m + m21 m) / s)
  else
    let s := 2 * sqrt (1 + m22 m - m00 m - m11 m) in
    Quat ((m01 m - m10 m) / s)
         ((m02 m + m20 m) / s)
         ((m12 m + m21 m) / s)
         (0.25 * s).

(** ** Outcomes of a call *)

(** The Python exceptions the class can raise. *)
Inductive exn := AssertionError | AttributeError | TypeError.

(** [Unmodelled]: the call evaluates a numpy division by zero.  Python
    raises nothing there (numpy yields inf or nan and goes on); the
    real-number reading says nothing about the value returned. *)
Inductive result (A : Type) :=
| Ok (a : A)
| Raise (e : exn)
| Unmodelled.
Arguments Ok {A} a.
Arguments Raise {A} e.
Arguments Unmodelled {A}.

Definition rbind {A B} (r : result A) (k : A -> result B) : result B :=
  match r with
  | Ok a => k a
  | Raise e => Raise e
  | Unmodelled => Unmodelled
  end.

(** [assert b] *)
Definition rassert (b : bool) : result unit :=
  if b then Ok tt else Raise AssertionError.

Declare Scope result_scope.
Delimit Scope result_scope with result.
Notation "x <- c1 ;; c2" := (rbind c1 (fun x => c2))
  (at level 61, c1 at next level, right associativity) : result_scope.
Notation "c1 ;; c2" := (rbind c1 (fun _ => c2))
  (at level 61, right associativity) : result_scope.

(** ** Data held by a camera *)

(** A two-dimensional float array as returned by the depth-map decoder:
    its shape and its entries, [nd_at a y x] being [a[y][x]]. *)
Record ndarray2 := NdArray2 {
  nd_height : nat;
  nd_width : nat;
  nd_at : nat -> nat -> R }.

(** An instance attribute that [__init__] does not create. *)
Inductive attribute (A : Type) :=
| Absent
| Attr (a : A).
Arguments Absent {A}.
Arguments Attr {A} a.

Definition IMAGE_FP_TYPE_NAME : string := "NAME".
Definition IMAGE_FP_TYPE_RELATIVE : string := "RELATIVE".
Definition IMAGE_FP_TYPE_ABSOLUTE : string := "ABSOLUTE".
Definition DEPTH_MAP_WRT_UNIT_VECTORS : string := "DEPTH_MAP_WRT_UNIT_VECTORS".
Definition DEPTH_MAP_WRT_CANONICAL_VECTORS : string :=
  "DEPTH_MAP_WRT_CANONICAL_VECTORS".

Record Camera := mkCamera {
  _center : vec3;
  _translation_vec : vec3;
  normal : vec3;
  color : Z * Z * Z;
  _quaternion : quat;
  _rotation_mat : mat3;
  _calibration_mat : mat3;
  _radial_distortion : attribute (option R);
  image_fp_type : option string;
  image_dp : option string;
  _relative_fp : option string;
  _absolute_fp : option string;
  _undistorted_relative_fp : option string;
  _undistorted_absolute_fp : option string;
  width : option Z;
  height : option Z;
  panoramic_type : option string;
  depth_map_fp : option string;
  depth_map_callback : option (string -> ndarray2);
  depth_map_semantic : option string;
  cam_id : option Z }.

Definition with_center (x : vec3) (cam : Camera) : Camera :=
  mkCamera x (_translation_vec cam) (normal cam) (color cam) (_quaternion cam)
    (_rotation_mat cam) (_calibration_mat cam) (_radial_distortion cam)
    (image_fp_type cam) (image_dp cam) (_relative_fp cam)
    (_absolute_fp cam) (_undistorted_relative_fp cam)
    (_undistorted_absolute_fp cam) (width cam) (height cam)
    (panoramic_type cam) (depth_map_fp cam) (depth_map_callback cam)
    (depth_map_semantic cam) (cam_id cam).

Definition with_translation_vec (x : vec3) (cam : Camera) : Camera :=
  mkCamera (_center cam) x (normal cam) (color cam) (_quaternion cam)
    (_rotation_mat cam) (_calibration_mat cam) (_radial_distortion cam)
    (image_fp_type cam) (image_dp cam) (_relative_fp cam)
    (_absolute_fp cam) (_undistorted_relative_fp cam)
    (_undistorted_absolute_fp cam) (width cam) (height cam)
    (panoramic_type cam) (depth_map_fp cam) (depth_map_callback cam)
    (depth_map_semantic cam) (cam_id cam).

Definition with_quaternion (x : quat) (cam : Camera) : Camera :=
  mkCamera (_center cam) (_translation_vec cam) (normal cam) (color cam) x
    (_rotation_mat cam) (_calibration_mat cam) (_radial_distortion cam)
    (image_fp_type cam) (image_dp cam) (_relative_fp cam)
    (_absolute_fp cam) (_undistorted_relative_fp cam)
    (_undistorted_absolute_fp cam) (width cam) (height cam)
    (panoramic_type cam) (depth_map_fp cam) (depth_map_callback cam)
    (depth_map_semantic cam) (cam_id cam).

Definition with_rotation_mat (x : mat3) (cam : Camera) : Camera :=
  mkCamera (_center cam) (_translation_vec cam) (normal cam) (color cam)
    (_quaternion cam) x (_calibration_mat cam) (_radial_distortion cam)
    (image_fp_type cam) (image_dp cam) (_relative_fp cam)
    (_absolute_fp cam) (_undistorted_relative_fp cam)
    (_undistorted_absolute_fp cam) (width cam) (height cam)
    (panoramic_type cam) (depth_map_fp cam) (depth_map_callback cam)
    (depth_map_semantic cam) (cam_id cam).

Definition with_calibration_mat (x : mat3) (cam : Camera) : Camera :=
  mkCamera (_center cam) (_translation_vec cam) (normal cam) (color cam)
    (_quaternion cam) (_rotation_mat cam) x (_radial_distortion cam)
    (image_fp_type cam) (image_dp cam) (_relative_fp cam)
    (_absolute_fp cam) (_undistorted_relative_fp cam)
    (_undistorted_absolute_fp cam) (width cam) (height cam)
    (panoramic_type cam) (depth_map_fp cam) (depth_map_callback cam)
    (depth_map_semantic cam) (cam_id cam).

Definition with_radial_distortion (x : attribute (option R)) (cam : Camera) : Camera :=
  mkCamera (_center cam) (_translation_vec cam) (normal cam) (color cam)
    (_quaternion cam) (_rotation_mat cam) (_calibration_mat cam) x
    (image_fp_type cam) (image_dp cam) (_relative_fp cam)
    (_absolute_fp cam) (_undistorted_relative_fp cam)
    (_undistorted_absolute_fp cam) (width cam) (height cam)
    (panoramic_type cam) (depth_map_fp cam) (depth_map_callback cam)
    (depth_map_semantic cam) (cam_id cam).

Definition with_image_fp_type (x : option string) (cam : Camera) : Camera :=
  mkCamera (_center cam) (_translation_vec cam) (normal cam) (color cam)
    (_quaternion cam) (_rotation_mat cam) (_calibration_mat cam)
    (_radial_distortion cam) x (image_dp cam) (_relative_fp cam)
    (_absolute_fp cam) (_undistorted_relative_fp cam)
    (_undistorted_absolute_fp cam) (width cam) (height cam)
    (panoramic_type cam) (depth_map_fp cam) (depth_map_callback cam)
    (depth_map_semantic cam) (cam_id cam).

Definition with_relative_fp (x : option string) (cam : Camera) : Camera :=
  mkCamera (_center cam) (_translation_vec cam) (normal cam) (color cam)
    (_quaternion cam) (_rotation_mat cam) (_calibration_mat cam)
    (_radial_distortion cam) (image_fp_type cam) (image_dp cam) x
    (_absolute_fp cam) (_undistorted_relative_fp cam)
    (_undistorted_absolute_fp cam) (width cam) (height cam)
    (panoramic_type cam) (depth_map_fp cam) (depth_map_callback cam)
    (depth_map_semantic cam) (cam_id cam).

Definition with_absolute_fp (x : option string) (cam : Camera) : Camera :=
  mkCamera (_center cam) (_translation_vec cam) (normal cam) (color cam)
    (_quaternion cam) (_rotation_mat cam) (_calibration_mat cam)
    (_radial_distortion cam) (image_fp_type cam) (image_dp cam)
    (_relative_fp cam) x (_undistorted_relative_fp cam)
    (_undistorted_absolute_fp cam) (width cam) (height cam)
    (panoramic_type cam) (depth_map_fp cam) (depth_map_callback cam)
    (depth_map_semantic cam) (cam_id cam).

Definition with_panoramic_type (x : option string) (cam : Camera) : Camera :=
  mkCamera (_center cam) (_translation_vec cam) (normal cam) (color cam)
    (_quaternion cam) (_rotation_mat cam) (_calibration_mat cam)
    (_radial_distortion cam) (image_fp_type cam) (image_dp cam)
    (_relative_fp cam) (_absolute_fp cam)
    (_undistorted_relative_fp cam) (_undistorted_absolute_fp cam)
    (width cam) (height cam) x (depth_map_fp cam)
    (depth_map_callback cam) (depth_map_semantic cam) (cam_id cam).

Definition with_depth_map_fp (x : option string) (cam : Camera) : Camera :=
  mkCamera (_center cam) (_translation_vec cam) (normal cam) (color cam)
    (_quaternion cam) (_rotation_mat cam) (_calibration_mat cam)
    (_radial_distortion cam) (image_fp_type cam) (image_dp cam)
    (_relative_fp cam) (_absolute_fp cam)
    (_undistorted_relative_fp cam) (_undistorted_absolute_fp cam)
    (width cam) (height cam) (panoramic_type cam) x
    (depth_map_callback cam) (depth_map_semantic cam) (cam_id cam).

Definition with_depth_map_callback (x : option (string -> ndarray2)) (cam : Camera) : Camera :=
  mkCamera (_center cam) (_translation_vec cam) (normal cam) (color cam)
    (_quaternion cam) (_rotation_mat cam) (_calibration_mat cam)
    (_radial_distortion cam) (image_fp_type cam) (image_dp cam)
    (_relative_fp cam) (_absolute_fp cam)
    (_undistorted_relative_fp cam) (_undistorted_absolute_fp cam)
    (width cam) (height cam) (panoramic_type cam) (depth_map_fp cam) x
    (depth_map_semantic cam) (cam_id cam).

Definition with_depth_map_semantic (x : option string) (cam : Camera) : Camera :=
  mkCamera (_center cam) (_translation_vec cam) (normal cam) (color cam)
    (_quaternion cam) (_rotation_mat cam) (_calibration_mat cam)
    (_radial_distortion cam) (image_fp_type cam) (image_dp cam)
    (_relative_fp cam) (_absolute_fp cam)
    (_undistorted_relative_fp cam) (_undistorted_absolute_fp cam)
    (width cam) (height cam) (panoramic_type cam) (depth_map_fp cam)
    (depth_map_callback cam) x (cam_id cam).

(** The state built by [__init__]. *)
Definition init_camera : Camera :=
  mkCamera vec3_zero vec3_zero vec3_zero (255%Z, 255%Z, 255%Z)
    (Quat 0 0 0 0) mat3_zeros mat3_zeros Absent
    None None None None None None None None None None None None None.

(** ** The state-and-exception monad of the setters *)

Definition St (A : Type) : Type := Camera -> result A * Camera.

Definition st_ret {A} (a : A) : St A := fun cam => (Ok a, cam).

Definition st_bind {A B} (c : St A) (k : A -> St B) : St B :=
  fun cam =>
    match c cam with
    | (Ok a, cam') => k a cam'
    | (Raise e, cam') => (Raise e, cam')
    | (Unmodelled, cam') => (Unmodelled, cam')
    end.

(** An assignment to attributes of [self]. *)
Definition st_modify (f : Camera -> Camera) : St unit :=
  fun cam => (Ok tt, f cam).

(** A read of [self]. *)
Definition st_gets {A} (f : Camera -> A) : St A :=
  fun cam => (Ok (f cam), cam).

(** [assert b] *)
Definition st_assert (b : bool) : St unit :=
  fun cam => (rassert b, cam).

(** [if b: c] *)
Definition st_when (b : bool) (c : St unit) : St unit :=
  if b then c else st_ret tt.

Declare Scope st_scope.
Delimit Scope st_scope with st.
Notation "x <- c1 ;; c2" := (st_bind c1 (fun x => c2))
  (at level 61, c1 at next level, right associativity) : st_scope.
Notation "c1 ;; c2" := (st_bind c1 (fun _ => c2))
  (at level 61, right associativity) : st_scope.

(** ** Python helpers *)

(** [o is not None] *)
Definition is_not_None {A} (o : option A) : bool :=
  match o with Some _ => true | None => false end.

(** [o == s] for an attribute that holds [None] or a string. *)
Definition py_eq_str (o : option string) (s : string) : bool :=
  match o with Some t => String.eqb t s | None => false end.

(** [o == n] for an attribute that holds [None] or an int. *)
Definition py_eq_int (o : option Z) (n : Z) : bool :=
  match o with Some k => Z.eqb k n | None => false end.

(** [os.path.basename] of [posixpath]: what follows the last slash. *)
Fixpoint basename_from (acc p : string) : string :=
  match p with
  | EmptyString => acc
  | String c rest =>
      if Ascii.eqb c "/"%char then basename_from EmptyString rest
      else basename_from (acc ++ String c EmptyString) rest
  end.
Definition os_path_basename (p : string) : string :=
  basename_from EmptyString p.

Fixpoint ends_with_slash (p : string) : bool :=
  match p with
  | EmptyString => false
  | String c EmptyString => Ascii.eqb c "/"%char
  | String _ rest => ends_with_slash rest
  end.

(** [os.path.join(a, b)] of [posixpath], for two arguments. *)
Definition os_path_join (a b : string) : string :=
  match b with
  | String "/"%char _ => b
  | _ =>
      match a with
      | EmptyString => b
      | _ => if ends_with_slash a then (a ++ b)%string
             else (a ++ "/" ++ b)%string
      end
  end.

(** ** Path resolution *)

Definition set_relative_fp (relative_fp : option string)
    (fp_type : option string) : St unit :=
  (st_modify (with_relative_fp relative_fp) ;;
   st_modify (with_image_fp_type fp_type))%st.

Definition set_absolute_fp (absolute_fp : option string) : St unit :=
  st_modify (with_absolute_fp absolute_fp).

Definition _get_relative_fp (cam : Camera)
    (relative_fp absolute_fp : option string) : result string :=
  if py_eq_str (image_fp_type cam) IMAGE_FP_TYPE_NAME then
    match relative_fp with
    | Some fp => Ok (os_path_basename fp)
    | None => Raise AssertionError
    end
  else if py_eq_str (image_fp_type cam) IMAGE_FP_TYPE_RELATIVE then
    match relative_fp with
    | Some fp => Ok fp
    | None => Raise AssertionError
    end
  else if py_eq_str (image_fp_type cam) IMAGE_FP_TYPE_ABSOLUTE then
    match absolute_fp with
    | Some fp => Ok fp
    | None => Raise AssertionError
    end
  else Raise AssertionError.

Definition get_relative_fp (cam : Camera) : result string :=
  _get_relative_fp cam (_relative_fp cam) (_absolute_fp cam).

Definition get_undistorted_relative_fp (cam : Camera) : result string :=
  _get_relative_fp cam
    (_undistorted_relative_fp cam) (_undistorted_absolute_fp cam).

Definition _get_absolute_fp (cam : Camera)
    (relative_fp absolute_fp : option string) : result string :=
  if py_eq_str (image_fp_type cam) IMAGE_FP_TYPE_NAME then
    match image_dp cam, relative_fp with
    | Some dp, Some fp => Ok (os_path_join dp (os_path_basename fp))
    | _, _ => Raise AssertionError
    end
  else if py_eq_str (image_fp_type cam) IMAGE_FP_TYPE_RELATIVE then
    match image_dp cam, relative_fp with
    | Some dp, Some fp => Ok (os_path_join dp fp)
    | _, _ => Raise AssertionError
    end
  else if py_eq_str (image_fp_type cam) IMAGE_FP_TYPE_ABSOLUTE then
    match absolute_fp with
    | Some fp => Ok fp
    | None => Raise AssertionError
    end
  else Raise AssertionError.

Definition get_absolute_fp (cam : Camera) : result string :=
  _get_absolute_fp cam (_relative_fp cam) (_absolute_fp cam).

Definition get_undistored_absolute_fp (cam : Camera) : result string :=
  if py_eq_str (image_fp_type cam) IMAGE_FP_TYPE_ABSOLUTE then
    Raise AssertionError
  else
    _get_absolute_fp cam
      (_undistorted_relative_fp cam) (_undistorted_absolute_fp cam).

Definition get_file_name (cam : Camera) : result string :=
  (fp <- get_absolute_fp cam ;; Ok (os_path_basename fp))%result.

(** [has_undistorted_absolute_fp]; [isfile] is [os.path.isfile] on the
    file system the call runs on. *)
Definition has_undistorted_absolute_fp (isfile : string -> bool)
    (cam : Camera) : result bool :=
  let requirements :=
    if py_eq_str (image_fp_type cam) IMAGE_FP_TYPE_NAME then
      is_not_None (image_dp cam)
      && is_not_None (_undistorted_relative_fp cam)
    else if py_eq_str (image_fp_type cam) IMAGE_FP_TYPE_RELATIVE then
      is_not_None (image_dp cam)
      && is_not_None (_undistorted_relative_fp cam)
    else if py_eq_str (image_fp_type cam) IMAGE_FP_TYPE_ABSOLUTE then
      is_not_None (_undistorted_absolute_fp cam)
    else false in
  if requirements then
    (fp <- _get_absolute_fp cam (_undistorted_relative_fp cam)
             (_undistorted_absolute_fp cam) ;;
     Ok (isfile fp))%result
  else Ok false.

(** ** Intrinsics *)

(** [np.asarray(calibration_mat, dtype=float)] is the identity on a float
    3x3 array. *)
Definition set_calibration (calibration_mat : mat3)
    (radial_distortion : option R) : St unit :=
  (st_modify (with_calibration_mat calibration_mat) ;;
   st_modify (with_radial_distortion (Attr radial_distortion)) ;;
   st_assert (is_not_None radial_distortion))%st.

Definition has_focal_length (cam : Camera) : bool :=
  Rltb 0 (m00 (_calibration_mat cam)).

Definition get_focal_length (cam : Camera) : R :=
  m00 (_calibration_mat cam).

(** [max(self.width, self.height) / (self.get_focal_length() * 2.0)] is a
    numpy division: a zero divisor yields inf or nan, not an exception. *)
Definition get_field_of_view (cam : Camera) : result R :=
  match width cam, height cam with
  | Some w, Some h =>
      let divisor := get_focal_length cam * 2 in
      if Req_dec_T divisor 0 then Unmodelled
      else Ok (atan (IZR (Z.max w h) / divisor) * 2)
  | _, _ => Raise AssertionError
  end.

Definition is_principal_point_initialized (cam : Camera) : bool :=
  let cx_zero := np_isclose (m02 (_calibration_mat cam)) 0 in
  let cy_zero := np_isclose (m12 (_calibration_mat cam)) 0 in
  negb cx_zero && negb cy_zero.

Definition has_intrinsics (cam : Camera) : bool :=
  has_focal_length cam && is_principal_point_initialized cam.

Definition check_calibration_mat (cam : Camera) : result unit :=
  rassert (has_focal_length cam && is_principal_point_initialized cam).

Definition get_calibration_mat (cam : Camera) : result mat3 :=
  (check_calibration_mat cam ;; Ok (_calibration_mat cam))%result.

Definition set_calibration_mat (calibration_mat : mat3) : St unit :=
  st_modify (with_calibration_mat calibration_mat).

Definition set_principal_point (principal_point : R * R) : St unit :=
  st_modify (fun cam =>
    let k := _calibration_mat cam in
    with_calibration_mat
      (Mat3 (m00 k) (m01 k) (fst principal_point)
            (m10 k) (m11 k) (snd principal_point)
            (m20 k) (m21 k) (m22 k)) cam).

Definition get_principal_point (cam : Camera) : result (R * R) :=
  (calibration_mat <- get_calibration_mat cam ;;
   Ok (m02 calibration_mat, m12 calibration_mat))%result.

Definition is_panoramic (cam : Camera) : bool :=
  is_not_None (panoramic_type cam).

Definition set_panoramic_type (p : option string) : St unit :=
  st_modify (with_panoramic_type p).

Definition compute_calibration_mat (focal_length cx cy : R) : mat3 :=
  Mat3 focal_length 0 cx 0 focal_length cy 0 0 1.

(** ** Pose *)

Definition set_quaternion (quaternion : quat) : St unit :=
  (st_modify (with_quaternion quaternion) ;;
   st_modify (with_rotation_mat (quaternion_to_rotation_matrix quaternion)))%st.

Definition set_rotation_mat (rotation_mat : mat3) (check_rotation : bool)
    : St unit :=
  (st_when check_rotation
     (st_assert (is_rotation_mat_valid rotation_mat)) ;;
   st_modify (with_rotation_mat rotation_mat) ;;
   st_modify (with_quaternion (rotation_matrix_to_quaternion rotation_mat)))%st.

Definition set_camera_center_after_rotation (center : vec3)
    (check_rotation : bool) : St unit :=
  (st_when check_rotation
     (r <- st_gets _rotation_mat ;; st_assert (is_rotation_mat_valid r)) ;;
   st_modify (with_center center) ;;
   st_modify (fun cam =>
     with_translation_vec (vec3_neg (np_dot (_rotation_mat cam) center)) cam))%st.

Definition set_camera_translation_vector_after_rotation
    (translation_vector : vec3) (check_rotation : bool) : St unit :=
  (st_when check_rotation
     (r <- st_gets _rotation_mat ;; st_assert (is_rotation_mat_valid r)) ;;
   st_modify (with_translation_vec translation_vector) ;;
   st_modify (fun cam =>
     with_center
       (vec3_neg (np_dot (transpose (_rotation_mat cam)) translation_vector))
       cam))%st.

Definition get_quaternion (cam : Camera) : quat := _quaternion cam.
Definition get_rotation_mat (cam : Camera) : mat3 := _rotation_mat cam.
Definition get_translation_vec (cam : Camera) : vec3 := _translation_vec cam.
Definition get_camera_center (cam : Camera) : vec3 := _center cam.

(** [cam_to_world_mat[0:3, 0:3]] and [cam_to_world_mat[0:3, 3]] *)
Definition mat4_upper_left (m : mat4) : mat3 :=
  Mat3 (h0 (row0 m)) (h1 (row0 m)) (h2 (row0 m))
       (h0 (row1 m)) (h1 (row1 m)) (h2 (row1 m))
       (h0 (row2 m)) (h1 (row2 m)) (h2 (row2 m)).
Definition mat4_last_column (m : mat4) : vec3 :=
  Vec3 (h3 (row0 m)) (h3 (row1 m)) (h3 (row2 m)).

Definition set_4x4_cam_to_world_mat (cam_to_world_mat : mat4)
    (check_rotation : bool) : St unit :=
  (set_rotation_mat (transpose (mat4_upper_left cam_to_world_mat))
     check_rotation ;;
   set_camera_center_after_rotation (mat4_last_column cam_to_world_mat)
     check_rotation)%st.

(** [M = [[R^T, c], [0, 1]]] *)
Definition get_4x4_cam_to_world_mat (cam : Camera) : mat4 :=
  let rt := transpose (get_rotation_mat cam) in
  let c := get_camera_center cam in
  Mat4 (Vec4 (m00 rt) (m01 rt) (m02 rt) (v0 c))
       (Vec4 (m10 rt) (m11 rt) (m12 rt) (v1 c))
       (Vec4 (m20 rt) (m21 rt) (m22 rt) (v2 c))
       (Vec4 0 0 0 1).

(** ** Depth maps *)

Definition set_depth_map (depth_map_ifp : option string)
    (callback : option (string -> ndarray2))
    (semantic : option string) : St unit :=
  (st_modify (with_depth_map_fp depth_map_ifp) ;;
   st_modify (with_depth_map_callback callback) ;;
   st_modify (with_depth_map_semantic semantic))%st.

(** [get_depth_map]: [os.path.isfile(None)] and a call of [None] raise
    [TypeError]; a path that is no file gives [None]. *)
Definition get_depth_map (isfile : string -> bool) (cam : Camera)
    : result (option ndarray2) :=
  match depth_map_fp cam with
  | None => Raise TypeError
  | Some fp =>
      if isfile fp then
        match depth_map_callback cam with
        | Some callback => Ok (Some (callback fp))
        | None => Raise TypeError
        end
      else Ok None
  end.

(** *** numpy on one-dimensional arrays, as lists *)

(** [np.indices((height, width))[0].flatten()] and [...[1].flatten()] *)
Definition np_indices_y (h w : nat) : list nat :=
  flat_map (fun y => map (fun _ => y) (seq 0 w)) (seq 0 h).
Definition np_indices_x (h w : nat) : list nat :=
  flat_map (fun _ => map (fun x => x) (seq 0 w)) (seq 0 h).

(** [a.flatten()], row by row *)
Definition nd_flatten (a : ndarray2) : list R :=
  flat_map (fun y => map (fun x => nd_at a y x) (seq 0 (nd_width a)))
           (seq 0 (nd_height a)).

(** An elementwise binary operation on two arrays of one length. *)
Definition map2 {A B C} (f : A -> B -> C) (xs : list A) (ys : list B)
    : list C :=
  map (fun p => f (fst p) (snd p)) (combine xs ys).

(** [a[flags]] for a boolean array [flags] *)
Definition mask_select {A} (flags : list bool) (a : list A) : list A :=
  map snd (filter fst (combine flags a)).

(** [a[::k]] for a positive step [k]: [skip] entries are passed over
    before the next one is kept. *)
Fixpoint slice_from {A} (k skip : nat) (a : list A) : list A :=
  match a with
  | [] => []
  | x :: rest =>
      match skip with
      | O => x :: slice_from k (k - 1) rest
      | S skip' => slice_from k skip' rest
      end
  end.
Definition slice_step {A} (k : nat) (a : list A) : list A :=
  slice_from k 0 a.

(** [a / d] for an array [a] and a scalar [d]: numpy evaluates a division
    by zero as soon as [a] has an entry. *)
Definition np_div_scalar (a : list R) (d : R) : result (list R) :=
  if Req_dec_T d 0 then
    match a with
    | [] => Ok []
    | _ :: _ => Unmodelled
    end
  else Ok (map (fun v => v / d) a).

(** [np.dstack((x, y, z, hom))[0]]: one homogeneous point per entry *)
Definition dstack4 (xs ys zs hs : list R) : list vec4 :=
  map (fun p => match p with (x, y, z, h) => Vec4 x y z h end)
      (combine (combine (combine xs ys) zs) hs).

(** *** Unprojection *)

Definition convert_depth_map_to_world_coords (isfile : string -> bool)
    (cam : Camera) (depth_map_display_sparsity : Z)
    : result (list vec3) :=
  (rassert (0 <? depth_map_display_sparsity)%Z ;;
   depth_map <- get_depth_map isfile cam ;;
   match depth_map with
   | None => Raise AttributeError      (* [None.shape] *)
   | Some depth_map =>
     rassert (py_eq_int (height cam) (Z.of_nat (nd_height depth_map))) ;;
     rassert (py_eq_int (width cam) (Z.of_nat (nd_width depth_map))) ;;
     kx <- get_calibration_mat cam ;;
     let fx := m00 kx in
     ky <- get_calibration_mat cam ;;
     let fy := m11 ky in
     pp <- get_principal_point cam ;;
     let cx := fst pp in
     let cy := snd pp in
     let y_index_list :=
       np_indices_y (nd_height depth_map) (nd_width depth_map) in
     let x_index_list :=
       np_indices_x (nd_height depth_map) (nd_width depth_map) in
     let y_index_list := rev y_index_list in
     let x_index_list := rev x_index_list in
     let fx := - fx in
     let fy := - fy in
     let depth_values := nd_flatten depth_map in
     rassert (Nat.eqb (List.length x_index_list) (List.length y_index_list)
              && Nat.eqb (List.length y_index_list)
                         (List.length depth_values)) ;;
     let x_index_coord_list := map (fun i => INR i + 0.5) x_index_list in
     let y_index_coord_list := map (fun i => INR i + 0.5) y_index_list in
     x_coords_canonical <-
       np_div_scalar (map (fun v => v - cx) x_index_coord_list) fx ;;
     y_coords_canonical <-
       np_div_scalar (map (fun v => v - cy) y_index_coord_list) fy ;;
     let z_coords_canonical := repeat 1 (List.length depth_values) in
     let non_background_flags := map (fun d => Rltb 0 d) depth_values in
     let x_coords_canonical_filtered :=
       mask_select non_background_flags x_coords_canonical in
     let y_coords_canonical_filtered :=
       mask_select non_background_flags y_coords_canonical in
     let z_coords_canonical_filtered :=
       mask_select non_background_flags z_coords_canonical in
     let depth_values_filtered :=
       mask_select non_background_flags depth_values in
     let subsample (a : list R) :=
       if negb (Z.eqb depth_map_display_sparsity 100)
       then slice_step (Z.to_nat depth_map_display_sparsity) a
       else a in
     let x_coords_canonical_filtered :=
       subsample x_coords_canonical_filtered in
     let y_coords_canonical_filtered :=
       subsample y_coords_canonical_filtered in
     let z_coords_canonical_filtered :=
       subsample z_coords_canonical_filtered in
     let depth_values_filtered := subsample depth_values_filtered in
     coords <-
       (if py_eq_str (depth_map_semantic cam)
             DEPTH_MAP_WRT_CANONICAL_VECTORS then
          Ok (map2 Rmult x_coords_canonical_filtered depth_values_filtered,
              map2 Rmult y_coords_canonical_filtered depth_values_filtered,
              map2 Rmult z_coords_canonical_filtered depth_values_filtered)
        else if py_eq_str (depth_map_semantic cam)
                  DEPTH_MAP_WRT_UNIT_VECTORS then
          let cannonical_norms_filtered :=
            map (fun p => match p with
                          | (x, y, z) => sqrt (x * x + y * y + z * z)
                          end)
                (combine (combine x_coords_canonical_filtered
                                  y_coords_canonical_filtered)
                         z_coords_canonical_filtered) in
          let normalized_depth_values_filtered :=
            map2 Rdiv depth_values_filtered cannonical_norms_filtered in
          Ok (map2 Rmult x_coords_canonical_filtered
                normalized_depth_values_filtered,
              map2 Rmult y_coords_canonical_filtered
                normalized_depth_values_filtered,
              map2 Rmult z_coords_canonical_filtered
                normalized_depth_values_filtered)
        else Raise AssertionError) ;;
     let x_coords_filtered := fst (fst coords) in
     let y_coords_filtered := snd (fst coords) in
     let z_coords_filtered := snd coords in
     let hom_entries := map (fun _ => 1) z_coords_filtered in
     let cam_coords_hom :=
       dstack4 x_coords_filtered y_coords_filtered z_coords_filtered
               hom_entries in
     let world_coords_hom :=
       map (mat4_dot (get_4x4_cam_to_world_mat cam)) cam_coords_hom in
     Ok (map drop_hom world_coords_hom)
   end)%result.

(** ** Cameras used as examples, and specification-side predicates *)

(** The camera of the spec's path examples: image directory [/data],
    undistorted image [sub/img.png], addressed by name. *)
Definition camera_by_name : Camera :=
  with_image_fp_type (Some IMAGE_FP_TYPE_NAME)
    (mkCamera vec3_zero vec3_zero vec3_zero (255%Z, 255%Z, 255%Z)
       (Quat 0 0 0 0) mat3_zeros mat3_zeros Absent
       None (Some "/data"%string) (Some "sub/img.png"%string) None
       (Some "sub/img.png"%string) None None None None None None None None).

(** A camera addressed by absolute paths, with an undistorted image. *)
Definition camera_by_absolute_path : Camera :=
  mkCamera vec3_zero vec3_zero vec3_zero (255%Z, 255%Z, 255%Z)
    (Quat 0 0 0 0) mat3_zeros mat3_zeros Absent
    (Some IMAGE_FP_TYPE_ABSOLUTE) None None (Some "/x/y.png"%string)
    None (Some "/x/undistorted/y.png"%string)
    None None None None None None None.

(** A camera with [width = 1000], [height = 500] and focal length [f]. *)
Definition camera_with_focal_length (f : R) : Camera :=
  mkCamera vec3_zero vec3_zero vec3_zero (255%Z, 255%Z, 255%Z)
    (Quat 0 0 0 0) mat3_zeros (compute_calibration_mat f 500 250) Absent
    None None None None None None (Some 1000%Z) (Some 500%Z)
    None None None None None.

(** Every attribute but [_quaternion] and [_rotation_mat] is the same in
    both states. *)
Definition same_outside_orientation (cam cam' : Camera) : Prop :=
  _center cam' = _center cam
  /\ _translation_vec cam' = _translation_vec cam
  /\ normal cam' = normal cam
  /\ color cam' = color cam
  /\ _calibration_mat cam' = _calibration_mat cam
  /\ _radial_distortion cam' = _radial_distortion cam
  /\ image_fp_type cam' = image_fp_type cam
  /\ image_dp cam' = image_dp cam
  /\ _relative_fp cam' = _relative_fp cam
  /\ _absolute_fp cam' = _absolute_fp cam
  /\ _undistorted_relative_fp cam' = _undistorted_relative_fp cam
  /\ _undistorted_absolute_fp cam' = _undistorted_absolute_fp cam
  /\ width cam' = width cam
  /\ height cam' = height cam
  /\ panoramic_type cam' = panoramic_type cam
  /\ depth_map_fp cam' = depth_map_fp cam
  /\ depth_map_callback cam' = depth_map_callback cam
  /\ depth_map_semantic cam' = depth_map_semantic cam
  /\ cam_id cam' = cam_id cam.

(** *** Sequences of pose setter calls *)

(** A call of one of the three setters, with its arguments. *)
Inductive pose_call :=
| SetRotationMat (rotation_mat : mat3) (check_rotation : bool)
| SetCameraCenterAfterRotation (center : vec3) (check_rotation : bool)
| SetCameraTranslationVectorAfterRotation
    (translation_vector : vec3) (check_rotation : bool).

Definition run_call (c : pose_call) : St unit :=
  match c with
  | SetRotationMat m chk => set_rotation_mat m chk
  | SetCameraCenterAfterRotation v chk =>
      set_camera_center_after_rotation v chk
  | SetCameraTranslationVectorAfterRotation v chk =>
      set_camera_translation_vector_after_rotation v chk
  end.

(** The calls one after the other; an exception ends the sequence. *)
Fixpoint run_calls (cs : list pose_call) : St unit :=
  match cs with
  | [] => st_ret tt
  | c :: rest => (run_call c ;; run_calls rest)%st
  end.

(** The arguments a call is documented to take: with the check on, a
    rotation matrix that [is_rotation_mat_valid] accepts. *)
Definition valid_arguments (c : pose_call) : Prop :=
  match c with
  | SetRotationMat m _ => is_rotation_mat_valid m = true
  | _ => True
  end.

(** The relation [t = -R C] between the stored translation vector,
    rotation matrix and center. *)
Definition pose_relation (cam : Camera) : Prop :=
  _translation_vec cam
    = vec3_neg (np_dot (_rotation_mat cam) (_center cam)).

(** [R R^T = I] *)
Definition is_orthogonal (m : mat3) : Prop :=
  mat3_mul m (transpose m) = mat3_identity.

(** A half turn about the z axis. *)
Definition half_turn_z : mat3 := Mat3 (-1) 0 0 0 (-1) 0 0 0 1.

(** *** Depth-map examples *)

(** A decoder that yields the two-pixel map [[2, 3]] for every path. *)
Definition two_pixel_map : ndarray2 :=
  NdArray2 1 2 (fun _ x => match x with O => 2 | _ => 3 end).

(** A camera of width 2 and height 1, focal length 1, principal point
    [(1/2, 1/2)], identity rotation and center at the origin, whose depth
    map [depth/0001.bin] holds canonical depths. *)
Definition two_pixel_camera : Camera :=
  mkCamera vec3_zero vec3_zero vec3_zero (255%Z, 255%Z, 255%Z)
    (Quat 1 0 0 0) mat3_identity
    (compute_calibration_mat 1 (1 / 2) (1 / 2)) (Attr (Some 0))
    (Some IMAGE_FP_TYPE_NAME) (Some "/data"%string)
    (Some "0001.png"%string) None None None
    (Some 2%Z) (Some 1%Z) None
    (Some "depth/0001.bin"%string) (Some (fun _ => two_pixel_map))
    (Some DEPTH_MAP_WRT_CANONICAL_VECTORS) (Some 1%Z).

(** A file system on which every path is a file, and one with no file. *)
Definition every_path_is_a_file : string -> bool := fun _ => true.
Definition no_file : string -> bool := fun _ => false.

(** *** Quaternion round trip *)

(** The four cases of [rotation_matrix_to_quaternion], in the order of its
    tests. *)
Inductive quaternion_branch :=
| TraceBranch       (* [1 + trace > 1e-9] *)
| Diagonal0Branch   (* [m[0][0]] is the largest diagonal entry *)
| Diagonal1Branch   (* else [m[1][1] > m[2][2]] *)
| Diagonal2Branch.  (* else *)

Definition selected_branch (m : mat3) : quaternion_branch :=
  if Rltb trace_eps (1 + m00 m + m11 m + m22 m) then TraceBranch
  else if Rltb (m11 m) (m00 m) && Rltb (m22 m) (m00 m) then Diagonal0Branch
  else if Rltb (m22 m) (m11 m) then Diagonal1Branch
  else Diagonal2Branch.

(** The matrix [quaternion_to_rotation_matrix] writes from the normalised
    components [w, x, y, z]. *)
Definition matrix_of_components (w x y z : R) : mat3 :=
  Mat3 (w * w + x * x - z * z - y * y)
       (2 * x * y - 2 * z * w)
       (2 * y * w + 2 * z * x)
       (2 * x * y + 2 * w * z)
       (y * y + w * w - z * z - x * x)
       (2 * z * y - 2 * x * w)
       (2 * x * z - 2 * y * w)
       (2 * y * z + 2 * w * x)
       (z * z + w * w - y * y - x * x).

(** Matrix to quaternion and back. *)
Definition round_trip (m : mat3) : mat3 :=
  quaternion_to_rotation_matrix (rotation_matrix_to_quaternion m).

(** Every entry of [a] is within [tol] of the entry of [b]. *)
Definition mat3_close (tol : R) (a b : mat3) : Prop :=
  Rabs (m00 a - m00 b) <= tol /\ Rabs (m01 a - m01 b) <= tol
  /\ Rabs (m02 a - m02 b) <= tol /\ Rabs (m10 a - m10 b) <= tol
  /\ Rabs (m11 a - m11 b) <= tol /\ Rabs (m12 a - m12 b) <= tol
  /\ Rabs (m20 a - m20 b) <= tol /\ Rabs (m21 a - m21 b) <= tol
  /\ Rabs (m22 a - m22 b) <= tol.

(** The point reflection [-I], of determinant [-1]. *)
Definition point_reflection : mat3 := Mat3 (-1) 0 0 0 (-1) 0 0 0 (-1).

(** Half turns about the x and the y axis. *)
Definition half_turn_x : mat3 := Mat3 1 0 0 0 (-1) 0 0 0 (-1).
Definition half_turn_y : mat3 := Mat3 (-1) 0 0 0 1 0 0 0 (-1).

(** *** Unprojection, in the words of the specification *)

(** The canonical ray of pixel [(x, y)]: the pixel center
    [(x + 0.5, y + 0.5)], the principal point [(cx, cy)] and the negated
    focal lengths. *)
Definition canonical_ray (cam : Camera) (x y : nat) : vec3 :=
  let k := _calibration_mat cam in
  Vec3 ((INR x + 0.5 - m02 k) / (- m00 k))
       ((INR y + 0.5 - m12 k) / (- m11 k))
       1.

(** A camera-space point made homogeneous, transformed by the 4x4
    cam-to-world matrix, and cut back to three coordinates. *)
Definition cam_to_world (cam : Camera) (p : vec3) : vec3 :=
  drop_hom (mat4_dot (get_4x4_cam_to_world_mat cam)
                     (Vec4 (v0 p) (v1 p) (v2 p) 1)).

(** Row and column of the pixel at position [i] of the flattened map. *)
Definition pixel_row (a : ndarray2) (i : nat) : nat := (i / nd_width a)%nat.
Definition pixel_column (a : ndarray2) (i : nat) : nat :=
  (i mod nd_width a)%nat.

(** The depth stored at position [i] of the flattened map. *)
Definition depth_at (a : ndarray2) (i : nat) : R :=
  nd_at a (pixel_row a i) (pixel_column a i).

(** The position that the index reversal pairs with position [i]. *)
Definition mirrored (a : ndarray2) (i : nat) : nat :=
  (nd_height a * nd_width a - 1 - i)%nat.

(** The positions with a positive depth, in raster order. *)
Definition surviving (a : ndarray2) : list nat :=
  filter (fun i => Rltb 0 (depth_at a i))
         (seq 0 (nd_height a * nd_width a)).

(** The world point the code makes of position [i] under the canonical
    semantic: the depth at [i] times the canonical ray of the mirrored
    position. *)
Definition unprojected (cam : Camera) (a : ndarray2) (i : nat) : vec3 :=
  cam_to_world cam
    (vec3_scale (depth_at a i)
       (canonical_ray cam (pixel_column a (mirrored a i))
                          (pixel_row a (mirrored a i)))).

(** What the unprojection asks of the camera to return points for the
    decoded map [a] under the canonical semantic. *)
Definition unprojection_ready (isfile : string -> bool) (cam : Camera)
    (a : ndarray2) : Prop :=
  (exists fp callback,
      depth_map_fp cam = Some fp /\ isfile fp = true
      /\ depth_map_callback cam = Some callback /\ callback fp = a)
  /\ height cam = Some (Z.of_nat (nd_height a))
  /\ width cam = Some (Z.of_nat (nd_width a))
  /\ has_focal_length cam = true
  /\ is_principal_point_initialized cam = true
  /\ m11 (_calibration_mat cam) <> 0
  /\ depth_map_semantic cam = Some DEPTH_MAP_WRT_CANONICAL_VECTORS.

(** *** The unprojection in two steps *)

(** The subsampling step on one array. *)
Definition subsample {A} (sparsity : Z) (a : list A) : list A :=
  if negb (Z.eqb sparsity 100) then slice_step (Z.to_nat sparsity) a else a.

(** The part of [convert_depth_map_to_world_coords] between the assertion
    on the sparsity and the subsampling: the three canonical coordinates
    and the depths of the pixels that are not background. *)
Definition filtered_columns (isfile : string -> bool) (cam : Camera)
    : result (list R * list R * list R * list R) :=
  (depth_map <- get_depth_map isfile cam ;;
   match depth_map with
   | None => Raise AttributeError
   | Some depth_map =>
     rassert (py_eq_int (height cam) (Z.of_nat (nd_height depth_map))) ;;
     rassert (py_eq_int (width cam) (Z.of_nat (nd_width depth_map))) ;;
     kx <- get_calibration_mat cam ;;
     ky <- get_calibration_mat cam ;;
     pp <- get_principal_point cam ;;
     let y_index_list :=
       rev (np_indices_y (nd_height depth_map) (nd_width depth_map)) in
     let x_index_list :=
       rev (np_indices_x (nd_height depth_map) (nd_width depth_map)) in
     let depth_values := nd_flatten depth_map in
     rassert (Nat.eqb (List.length x_index_list) (List.length y_index_list)
              && Nat.eqb (List.length y_index_list)
                         (List.length depth_values)) ;;
     x_coords_canonical <-
       np_div_scalar
         (map (fun v => v - fst pp) (map (fun i => INR i + 0.5) x_index_list))
         (- m00 kx) ;;
     y_coords_canonical <-
       np_div_scalar
         (map (fun v => v - snd pp) (map (fun i => INR i + 0.5) y_index_list))
         (- m11 ky) ;;
     let z_coords_canonical := repeat 1 (List.length depth_values) in
     let non_background_flags := map (fun d => Rltb 0 d) depth_values in
     Ok (mask_select non_background_flags x_coords_canonical,
         mask_select non_background_flags y_coords_canonical,
         mask_select non_background_flags z_coords_canonical,
         mask_select non_background_flags depth_values)
   end)%result.

(** The part after the subsampling: scaling by the depth under the
    camera's semantic, and the transform to world coordinates. *)
Definition scale_and_transform (cam : Camera) (xs ys zs ds : list R)
    : result (list vec3) :=
  (coords <-
     (if py_eq_str (depth_map_semantic cam)
           DEPTH_MAP_WRT_CANONICAL_VECTORS then
        Ok (map2 Rmult xs ds, map2 Rmult ys ds, map2 Rmult zs ds)
      else if py_eq_str (depth_map_semantic cam)
                DEPTH_MAP_WRT_UNIT_VECTORS then
        let norms :=
          map (fun p => match p with
                        | (x, y, z) => sqrt (x * x + y * y + z * z)
                        end)
              (combine (combine xs ys) zs) in
        let normalized := map2 Rdiv ds norms in
        Ok (map2 Rmult xs normalized, map2 Rmult ys normalized,
            map2 Rmult zs normalized)
      else Raise AssertionError) ;;
   Ok (map drop_hom
         (map (mat4_dot (get_4x4_cam_to_world_mat cam))
            (dstack4 (fst (fst coords)) (snd (fst coords)) (snd coords)
               (map (fun _ => 1) (snd coords))))))%result.

(** A rotation about the x axis by an angle just short of a half turn:
    cosine [(1 - u^2) / (1 + u^2)] and sine [2u / (1 + u^2)] for
    [u = 100000]. *)
Definition near_half_turn_x : mat3 :=
  Mat3 1 0 0
       0 (-9999999999 / 10000000001) (- (200000 / 10000000001))
       0 (200000 / 10000000001) (-9999999999 / 10000000001).

(** *** Quaternions *)

(** [q[0]^2 + q[1]^2 + q[2]^2 + q[3]^2] *)
Definition quat_norm2 (q : quat) : R :=
  qw q * qw q + qx q * qx q + qy q * qy q + qz q * qz q.

(** The quaternion [k * q]. *)
Definition quat_scale (k : R) (q : quat) : quat :=
  Quat (k * qw q) (k * qx q) (k * qy q) (k * qz q).

(** The conjugate [(w, -x, -y, -z)]. *)
Definition quat_conj (q : quat) : quat :=
  Quat (qw q) (- qx q) (- qy q) (- qz q).

(** A shear along x: determinant 1, not orthogonal. *)
Definition shear_x : mat3 := Mat3 1 1 0 0 1 0 0 0 1.

(** [a + b] on 3-vectors *)
Definition vec3_add (a b : vec3) : vec3 :=
  Vec3 (v0 a + v0 b) (v1 a + v1 b) (v2 a + v2 b).

(** The tolerance of [np.isclose(det, 1)] and [np.isclose(det, -1)]:
    [atol + rtol * 1]. *)
Definition det_tolerance : R := 1001 / 100000000.

(** A cam-to-world matrix: identity rotation, camera at [(1, 2, 3)]. *)
Definition translation_4x4 : mat4 :=
  Mat4 (Vec4 1 0 0 1) (Vec4 0 1 0 2) (Vec4 0 0 1 3) (Vec4 0 0 0 1).

(** *** Names for the user interface *)

(** [p.rfind(c)], [-1] when [c] does not occur; [i] is the index of the
    first character of [p] and [last] the last index found so far. *)
Fixpoint rfind_from (c : ascii) (p : string) (i last : Z) : Z :=
  match p with
  | EmptyString => last
  | String d rest =>
      rfind_from c rest (i + 1)%Z (if Ascii.eqb d c then i else last)
  end.
Definition py_rfind (c : ascii) (p : string) : Z :=
  rfind_from c p 0%Z (-1)%Z.

(** The loop of [genericpath._splitext] over the indices
    [start, start + count): whether some character there is not a dot. *)
Fixpoint some_character_not_dot (p : string) (start count : nat) : bool :=
  match count with
  | O => false
  | S count' =>
      match String.get start p with
      | Some c =>
          if Ascii.eqb c "."%char
          then some_character_not_dot p (S start) count'
          else true
      | None => true
      end
  end.

(** [os.path.splitext(p)[0]] of [posixpath]: the path without its
    extension; leading dots of the file name do not start one. *)
Definition os_path_splitext_root (p : string) : string :=
  let sepIndex := py_rfind "/"%char p in
  let dotIndex := py_rfind "."%char p in
  if (sepIndex <? dotIndex)%Z
     && some_character_not_dot p (Z.to_nat (sepIndex + 1))
          (Z.to_nat (dotIndex - (sepIndex + 1)))
  then substring 0 (Z.to_nat dotIndex) p
  else p.

(** [s[-n:]] for a positive [n]: the last [n] characters, or all of [s]
    when it is shorter. *)
Definition py_last (n : nat) (s : string) : string :=
  substring (String.length s - n) n s.

Definition get_blender_obj_gui_str (cam : Camera) : result string :=
  (fp <- get_relative_fp cam ;;
   let image_fp_stem := os_path_splitext_root fp in
   let image_fp_suffix := py_last 40 image_fp_stem in
   Ok image_fp_suffix)%result.

Definition get_panoramic_type (cam : Camera) : option string :=
  panoramic_type cam.

(** Whether a slash occurs in [p]. *)
Fixpoint has_slash (p : string) : bool :=
  match p with
  | EmptyString => false
  | String c rest => Ascii.eqb c "/"%char || has_slash rest
  end.

(** Whether [p] starts with a slash. *)
Definition starts_with_slash (p : string) : bool :=
  match p with
  | EmptyString => false
  | String c _ => Ascii.eqb c "/"%char
  end.

(** A camera addressed by relative path whose image has a long name. *)
Definition camera_long_name : Camera :=
  mkCamera vec3_zero vec3_zero vec3_zero (255%Z, 255%Z, 255%Z)
    (Quat 0 0 0 0) mat3_zeros mat3_zeros Absent
    (Some IMAGE_FP_TYPE_RELATIVE) (Some "/data"%string)
    (Some "sequence_0001/left/frame_000000000000000000000000000123.png"%string)
    None None None None None None None None None None.

(** *** Depth maps: what the unprojection asks for, semantic apart *)

(** The path is a file and the decoder yields the array [a] for it. *)
Definition depth_map_decodes (isfile : string -> bool) (cam : Camera)
    (a : ndarray2) : Prop :=
  exists fp callback,
    depth_map_fp cam = Some fp /\ isfile fp = true
    /\ depth_map_callback cam = Some callback /\ callback fp = a.

(** The decoded array has the shape the camera stores. *)
Definition shape_matches (cam : Camera) (a : ndarray2) : Prop :=
  height cam = Some (Z.of_nat (nd_height a))
  /\ width cam = Some (Z.of_nat (nd_width a)).

Definition depth_map_ready (isfile : string -> bool) (cam : Camera)
    (a : ndarray2) : Prop :=
  depth_map_decodes isfile cam a
  /\ shape_matches cam a
  /\ has_intrinsics cam = true
  /\ m11 (_calibration_mat cam) <> 0.

Definition vec3_sub (a b : vec3) : vec3 :=
  Vec3 (v0 a - v0 b) (v1 a - v1 b) (v2 a - v2 b).

(** The squared Euclidean norm. *)
Definition vec3_norm2 (v : vec3) : R :=
  v0 v * v0 v + v1 v * v1 v + v2 v * v2 v.

(** The canonical ray that the code pairs with position [i]. *)
Definition paired_ray (cam : Camera) (a : ndarray2) (i : nat) : vec3 :=
  canonical_ray cam (pixel_column a (mirrored a i))
                    (pixel_row a (mirrored a i)).

(** The world point the code makes of position [i] under the unit-vector
    semantic: the depth divided by the norm of the ray, times the ray. *)
Definition unprojected_unit (cam : Camera) (a : ndarray2) (i : nat)
    : vec3 :=
  cam_to_world cam
    (vec3_scale (depth_at a i / sqrt (vec3_norm2 (paired_ray cam a i)))
       (paired_ray cam a i)).

(** The two-pixel camera with depths along unit vectors. *)
Definition two_pixel_camera_unit : Camera :=
  with_depth_map_semantic (Some DEPTH_MAP_WRT_UNIT_VECTORS) two_pixel_camera.

(** * Properties *)

(** ** Deciding comparisons *)

Lemma Rltb_true (x y : R) : x < y -> Rltb x y = true.
Proof. intros H. unfold Rltb. destruct (Rlt_dec x y); [reflexivity | contradiction]. Qed.

Lemma Rltb_false (x y : R) : y <= x -> Rltb x y = false.
Proof. intros H. unfold Rltb. destruct (Rlt_dec x y); [lra | reflexivity]. Qed.

Lemma Rltb_spec (x y : R) : Rltb x y = true <-> x < y.
Proof.
  unfold Rltb. destruct (Rlt_dec x y); split; intros; try assumption;
    try reflexivity; try discriminate; contradiction.
Qed.

Lemma Rleb_true (x y : R) : x <= y -> Rleb x y = true.
Proof. intros H. unfold Rleb. destruct (Rle_dec x y); [reflexivity | contradiction]. Qed.

Lemma Rleb_false (x y : R) : y < x -> Rleb x y = false.
Proof. intros H. unfold Rleb. destruct (Rle_dec x y); [lra | reflexivity]. Qed.

Lemma np_isclose_refl (a : R) : np_isclose a a = true.
Proof.
  unfold np_isclose, np_atol, np_rtol. apply Rleb_true.
  replace (a - a) with 0 by ring. rewrite Rabs_R0.
  pose proof (Rabs_pos a). nra.
Qed.

Lemma np_isclose_zero_false (a : R) : np_atol < a -> np_isclose a 0 = false.
Proof.
  intros H. unfold np_isclose. apply Rleb_false.
  unfold np_atol, np_rtol in *. rewrite Rabs_R0.
  replace (a - 0) with a by ring. rewrite Rabs_pos_eq; lra.
Qed.

Lemma is_rotation_mat_valid_det1 (m : mat3) :
  np_linalg_det m = 1 -> is_rotation_mat_valid m = true.
Proof.
  intros H. unfold is_rotation_mat_valid. cbv zeta. rewrite H.
  rewrite np_isclose_refl. reflexivity.
Qed.

Lemma is_rotation_mat_valid_det_neg1 (m : mat3) :
  np_linalg_det m = -1 -> is_rotation_mat_valid m = true.
Proof.
  intros H. unfold is_rotation_mat_valid. cbv zeta. rewrite H.
  rewrite (np_isclose_refl (-1)). apply orb_true_r.
Qed.

(** ** Path resolution *)



(** C7.  Under the ABSOLUTE mode the undistorted absolute path query fails
    (an assertion); under NAME and RELATIVE it is resolved through the image
    directory, exactly as [get_absolute_fp] resolves the ordinary path: it
    is the answer [get_absolute_fp] gives once the undistorted relative path
    is put in the place of the relative path. *)
Theorem get_undistored_absolute_fp_by_mode (cam : Camera) (mode : string)
    (Hmode : image_fp_type cam = Some mode) :
  (mode = IMAGE_FP_TYPE_ABSOLUTE ->
     get_undistored_absolute_fp cam = Raise AssertionError)
  /\ (mode = IMAGE_FP_TYPE_NAME ->
        get_undistored_absolute_fp cam =
          match image_dp cam, _undistorted_relative_fp cam with
          | Some dp, Some fp => Ok (os_path_join dp (os_path_basename fp))
          | _, _ => Raise AssertionError
          end
        /\ get_undistored_absolute_fp cam =
           get_absolute_fp
             (with_relative_fp (_undistorted_relative_fp cam) cam))
  /\ (mode = IMAGE_FP_TYPE_RELATIVE ->
        get_undistored_absolute_fp cam =
          match image_dp cam, _undistorted_relative_fp cam with
          | Some dp, Some fp => Ok (os_path_join dp fp)
          | _, _ => Raise AssertionError
          end
        /\ get_undistored_absolute_fp cam =
           get_absolute_fp
             (with_relative_fp (_undistorted_relative_fp cam) cam)).
Proof.
  unfold get_undistored_absolute_fp, get_absolute_fp, _get_absolute_fp.
  split; [| split]; intros ->; cbn; rewrite Hmode; cbn;
    try split; reflexivity.
Qed.

Lemma get_undistored_absolute_fp_by_mode_witness :
  get_undistored_absolute_fp camera_by_name = Ok "/data/img.png"%string
  /\ get_undistored_absolute_fp camera_by_absolute_path
     = Raise AssertionError.
Proof.
  split.
  - destruct (get_undistored_absolute_fp_by_mode camera_by_name
                IMAGE_FP_TYPE_NAME eq_refl) as (_ & H & _).
    rewrite (proj1 (H eq_refl)). reflexivity.
  - exact (proj1 (get_undistored_absolute_fp_by_mode camera_by_absolute_path
                    IMAGE_FP_TYPE_ABSOLUTE eq_refl) eq_refl).
Defined.

(** C10.  Under the ABSOLUTE mode, with an undistorted absolute path
    stored, [get_undistorted_relative_fp] succeeds and returns that
    absolute path as it is, while [get_undistored_absolute_fp] fails. *)
Theorem undistorted_relative_fp_absolute_mode (cam : Camera) (fp : string)
    (Hmode : image_fp_type cam = Some IMAGE_FP_TYPE_ABSOLUTE)
    (Hfp : _undistorted_absolute_fp cam = Some fp) :
  get_undistorted_relative_fp cam = Ok fp
  /\ get_undistored_absolute_fp cam = Raise AssertionError.
Proof.
  unfold get_undistorted_relative_fp, _get_relative_fp,
    get_undistored_absolute_fp.
  rewrite Hmode, Hfp. split; reflexivity.
Qed.

Lemma undistorted_relative_fp_absolute_mode_witness :
  get_undistorted_relative_fp camera_by_absolute_path
    = Ok "/x/undistorted/y.png"%string
  /\ get_undistored_absolute_fp camera_by_absolute_path
     = Raise AssertionError.
Proof.
  exact (undistorted_relative_fp_absolute_mode camera_by_absolute_path
           "/x/undistorted/y.png" eq_refl eq_refl).
Defined.

(** ** Intrinsics *)

(** C9.  [set_calibration] stores before it checks: called without a radial
    distortion it fails, and the state it leaves holds the new calibration
    matrix (and the missing distortion). *)
Theorem set_calibration_not_atomic (cam : Camera) (calibration_mat : mat3) :
  set_calibration calibration_mat None cam
    = (Raise AssertionError,
       with_radial_distortion (Attr None)
         (with_calibration_mat calibration_mat cam))
  /\ _calibration_mat (snd (set_calibration calibration_mat None cam))
     = calibration_mat
  /\ _radial_distortion (snd (set_calibration calibration_mat None cam))
     = Attr None.
Proof. repeat split. Qed.

(** With a distortion the same call succeeds and reaches the same state
    but for the distortion stored. *)
Lemma set_calibration_ok (cam : Camera) (calibration_mat : mat3) (d : R) :
  set_calibration calibration_mat (Some d) cam
    = (Ok tt,
       with_radial_distortion (Attr (Some d))
         (with_calibration_mat calibration_mat cam)).
Proof. reflexivity. Qed.


(** C4, as stated, fails: with the focal length [-500], which
    [has_focal_length] rejects, [get_field_of_view] does not fail; it
    returns the (negative) angle [2 * atan (-1)]. *)
Lemma get_field_of_view_invalid_focal_length :
  has_focal_length (camera_with_focal_length (-500)) = false
  /\ get_field_of_view (camera_with_focal_length (-500))
     = Ok (- (PI / 2)).
Proof.
  split.
  - unfold has_focal_length. cbn. apply Rltb_false. lra.
  - unfold get_field_of_view, get_focal_length. cbn.
    destruct (Req_dec_T (-500 * 2) 0) as [E | _]; [lra |].
    f_equal. replace (1000 / (-500 * 2)) with (Ropp 1) by field.
    rewrite atan_opp, atan_1. field.
Qed.

(** C4, amended.  [get_field_of_view] checks the image size only.  With
    width and height set and a focal length other than zero, valid or
    not, it returns [2 * atan (max(width, height) / (2 * focal length))];
    it raises (an assertion) exactly when width or height is unset. *)
Theorem get_field_of_view_spec (cam : Camera) :
  (forall w h : Z,
      width cam = Some w -> height cam = Some h ->
      get_focal_length cam <> 0 ->
      get_field_of_view cam
        = Ok (2 * atan (IZR (Z.max w h) / (2 * get_focal_length cam))))
  /\ (forall e, get_field_of_view cam = Raise e <->
                e = AssertionError
                /\ (width cam = None \/ height cam = None)).
Proof.
  unfold get_field_of_view. split.
  - intros w h -> -> Hf.
    destruct (Req_dec_T (get_focal_length cam * 2) 0) as [E | _]; [lra |].
    f_equal. rewrite (Rmult_comm 2 (get_focal_length cam)). ring.
  - intros e. destruct (width cam) as [w |], (height cam) as [h |].
    + destruct (Req_dec_T (get_focal_length cam * 2) 0); split;
        try discriminate; intros (_ & [H | H]); discriminate.
    + split; [intros [= <-] | intros (-> & _)]; auto.
    + split; [intros [= <-] | intros (-> & _)]; auto.
    + split; [intros [= <-] | intros (-> & _)]; auto.
Qed.

Lemma get_field_of_view_spec_witness :
  get_field_of_view (camera_with_focal_length 500)
    = Ok (2 * atan (IZR (Z.max 1000 500) / (2 * 500)))
  /\ get_field_of_view (camera_with_focal_length (-500))
     = Ok (2 * atan (IZR (Z.max 1000 500) / (2 * (-500)))).
Proof.
  split.
  - apply (proj1 (get_field_of_view_spec (camera_with_focal_length 500))
             1000%Z 500%Z eq_refl eq_refl).
    unfold get_focal_length. cbn. lra.
  - apply (proj1 (get_field_of_view_spec (camera_with_focal_length (-500)))
             1000%Z 500%Z eq_refl eq_refl).
    unfold get_focal_length. cbn. lra.
Defined.

(** The spec's example: [width = 1000], [height = 500], focal length [500]
    give a field of view of [pi / 2]. *)
Example get_field_of_view_right_angle :
  get_field_of_view (camera_with_focal_length 500) = Ok (PI / 2).
Proof.
  unfold get_field_of_view, get_focal_length. cbn.
  destruct (Req_dec_T (500 * 2) 0) as [E | _]; [lra |].
  f_equal. replace (1000 / (500 * 2)) with 1 by field.
  rewrite atan_1. field.
Qed.

(** ** Pose: what the rotation setters leave alone *)

Lemma same_outside_orientation_refl (cam : Camera) :
  same_outside_orientation cam cam.
Proof. unfold same_outside_orientation. repeat split. Qed.

Lemma set_rotation_mat_eq (m : mat3) (chk : bool) (cam : Camera) :
  set_rotation_mat m chk cam =
    if chk && negb (is_rotation_mat_valid m)
    then (Raise AssertionError, cam)
    else (Ok tt,
          with_quaternion (rotation_matrix_to_quaternion m)
            (with_rotation_mat m cam)).
Proof.
  unfold set_rotation_mat, st_bind, st_when, st_assert, st_modify, st_ret,
    rassert.
  destruct chk; cbn; [destruct (is_rotation_mat_valid m) |]; reflexivity.
Qed.

(** C8.  [set_quaternion] and [set_rotation_mat] change the quaternion and
    the rotation matrix only: the center and the translation vector (and
    every other attribute) are what they were, whatever the argument and
    whether or not the call succeeds. *)
Theorem rotation_setters_frame (cam : Camera) (q : quat) (m : mat3)
    (check_rotation : bool) :
  same_outside_orientation cam (snd (set_quaternion q cam))
  /\ same_outside_orientation cam (snd (set_rotation_mat m check_rotation cam))
  /\ _center (snd (set_rotation_mat m check_rotation cam)) = _center cam
  /\ _translation_vec (snd (set_rotation_mat m check_rotation cam))
     = _translation_vec cam.
Proof.
  rewrite set_rotation_mat_eq.
  destruct (check_rotation && negb (is_rotation_mat_valid m));
    unfold same_outside_orientation; cbn; repeat split.
Qed.

(** ** Pose: the relation between center and translation *)

Lemma set_camera_center_after_rotation_eq (c : vec3) (chk : bool)
    (cam : Camera) :
  set_camera_center_after_rotation c chk cam =
    if chk && negb (is_rotation_mat_valid (_rotation_mat cam))
    then (Raise AssertionError, cam)
    else (Ok tt,
          with_translation_vec (vec3_neg (np_dot (_rotation_mat cam) c))
            (with_center c cam)).
Proof.
  unfold set_camera_center_after_rotation, st_bind, st_when, st_assert,
    st_modify, st_gets, st_ret, rassert.
  destruct chk; cbn;
    [destruct (is_rotation_mat_valid (_rotation_mat cam)) |]; reflexivity.
Qed.

Lemma set_camera_translation_vector_after_rotation_eq (t : vec3)
    (chk : bool) (cam : Camera) :
  set_camera_translation_vector_after_rotation t chk cam =
    if chk && negb (is_rotation_mat_valid (_rotation_mat cam))
    then (Raise AssertionError, cam)
    else (Ok tt,
          with_center
            (vec3_neg (np_dot (transpose (_rotation_mat cam)) t))
            (with_translation_vec t cam)).
Proof.
  unfold set_camera_translation_vector_after_rotation, st_bind, st_when,
    st_assert, st_modify, st_gets, st_ret, rassert.
  destruct chk; cbn;
    [destruct (is_rotation_mat_valid (_rotation_mat cam)) |]; reflexivity.
Qed.

Lemma run_calls_app (cs ds : list pose_call) (cam : Camera) :
  run_calls (cs ++ ds) cam =
    match run_calls cs cam with
    | (Ok _, cam') => run_calls ds cam'
    | (Raise e, cam') => (Raise e, cam')
    | (Unmodelled, cam') => (Unmodelled, cam')
    end.
Proof.
  revert cam. induction cs as [| c cs IH]; intros cam; cbn.
  - reflexivity.
  - unfold st_bind. destruct (run_call c cam) as [[[] | e |] cam1];
      [apply IH | reflexivity | reflexivity].
Qed.

Lemma run_calls_snoc_ok (cs : list pose_call) (c : pose_call)
    (cam cam' : Camera) :
  run_calls (cs ++ [c]) cam = (Ok tt, cam') ->
  exists cam1, run_calls cs cam = (Ok tt, cam1)
               /\ run_call c cam1 = (Ok tt, cam').
Proof.
  rewrite run_calls_app.
  destruct (run_calls cs cam) as [[[] | e |] cam1]; try discriminate.
  cbn. unfold st_bind.
  destruct (run_call c cam1) as [[[] | e |] cam2] eqn:E; try discriminate.
  intros [= <-]. exists cam1. split; [reflexivity | exact E].
Qed.

Lemma np_dot_orthogonal_transpose (m : mat3) (t : vec3) :
  is_orthogonal m ->
  np_dot m (np_dot (transpose m) t) = t.
Proof.
  destruct m as [a b c d e f g h i], t as [x y z].
  unfold is_orthogonal, mat3_mul, np_dot, transpose, mat3_identity. cbn.
  intros [= H1 H2 H3 H4 H5 H6 H7 H8 H9].
  f_equal.
  - transitivity ((a * a + b * b + c * c) * x + (a * d + b * e + c * f) * y
                  + (a * g + b * h + c * i) * z); [ring |].
    rewrite H1, H2, H3. ring.
  - transitivity ((d * a + e * b + f * c) * x + (d * d + e * e + f * f) * y
                  + (d * g + e * h + f * i) * z); [ring |].
    rewrite H4, H5, H6. ring.
  - transitivity ((g * a + h * b + i * c) * x + (g * d + h * e + i * f) * y
                  + (g * g + h * h + i * i) * z); [ring |].
    rewrite H7, H8, H9. ring.
Qed.

(** C1, as stated, fails: after [set_rotation_mat], then
    [set_camera_center_after_rotation], then [set_rotation_mat] again, all
    with valid arguments and the check on, the translation vector is still
    the one computed from the first rotation. *)
Lemma pose_relation_broken_by_set_rotation_mat :
  let calls :=
    [SetRotationMat mat3_identity true;
     SetCameraCenterAfterRotation (Vec3 1 0 0) true;
     SetRotationMat half_turn_z true] in
  Forall valid_arguments calls
  /\ exists cam,
       run_calls calls init_camera = (Ok tt, cam)
       /\ _translation_vec cam = Vec3 (-1) 0 0
       /\ vec3_neg (np_dot (_rotation_mat cam) (_center cam)) = Vec3 1 0 0
       /\ ~ pose_relation cam.
Proof.
  assert (V1 : is_rotation_mat_valid mat3_identity = true).
  { apply is_rotation_mat_valid_det1. unfold np_linalg_det. cbn. ring. }
  assert (V2 : is_rotation_mat_valid half_turn_z = true).
  { apply is_rotation_mat_valid_det1. unfold np_linalg_det. cbn. ring. }
  cbv zeta. split.
  - repeat constructor; assumption.
  - eexists. cbn [run_calls run_call]. unfold st_bind.
    rewrite set_rotation_mat_eq, V1. cbn [andb negb].
    rewrite set_camera_center_after_rotation_eq.
    cbn [_rotation_mat with_quaternion with_rotation_mat].
    rewrite V1. cbn [andb negb].
    rewrite set_rotation_mat_eq, V2. cbn [andb negb].
    split; [reflexivity |].
    unfold pose_relation. cbn.
    assert (E1 : vec3_neg (np_dot mat3_identity (Vec3 1 0 0))
                 = Vec3 (-1) 0 0)
      by (unfold vec3_neg, np_dot; cbn; f_equal; ring).
    assert (E2 : vec3_neg (np_dot half_turn_z (Vec3 1 0 0)) = Vec3 1 0 0)
      by (unfold vec3_neg, np_dot; cbn; f_equal; ring).
    rewrite E1, E2. repeat split.
    intros [= H]. lra.
Qed.

(** C1, amended.  After a sequence of successful calls that ends with
    [set_camera_center_after_rotation], the relation [t = -R C] holds;
    after one that ends with
    [set_camera_translation_vector_after_rotation], it holds when the
    stored rotation matrix is orthogonal.  ([set_rotation_mat] does not
    re-establish it: it leaves center and translation as they are.) *)
Theorem pose_relation_after_calls (calls : list pose_call)
    (last : pose_call) (cam cam' : Camera)
    (Hrun : run_calls (calls ++ [last]) cam = (Ok tt, cam'))
    (Hlast : (exists c chk, last = SetCameraCenterAfterRotation c chk)
             \/ ((exists t chk,
                    last = SetCameraTranslationVectorAfterRotation t chk)
                 /\ is_orthogonal (_rotation_mat cam'))) :
  pose_relation cam'.
Proof.
  apply run_calls_snoc_ok in Hrun. destruct Hrun as (cam1 & _ & Hcall).
  destruct Hlast as [(c & chk & ->) | ((t & chk & ->) & Horth)];
    cbn [run_call] in Hcall.
  - rewrite set_camera_center_after_rotation_eq in Hcall.
    destruct (chk && negb (is_rotation_mat_valid (_rotation_mat cam1)));
      [discriminate |].
    injection Hcall as <-. unfold pose_relation. reflexivity.
  - rewrite set_camera_translation_vector_after_rotation_eq in Hcall.
    destruct (chk && negb (is_rotation_mat_valid (_rotation_mat cam1)));
      [discriminate |].
    injection Hcall as <-. unfold pose_relation. cbn in *.
    set (r := _rotation_mat cam1) in *.
    pose proof (np_dot_orthogonal_transpose r t Horth) as H.
    destruct r as [a b c d e f g h i], t as [x y z].
    unfold np_dot, transpose, vec3_neg in *. cbn in *.
    injection H as H1 H2 H3. f_equal; lra.
Qed.

Lemma pose_relation_after_calls_witness :
  exists cam',
    run_calls ([SetRotationMat half_turn_z true]
               ++ [SetCameraTranslationVectorAfterRotation (Vec3 1 2 3) true])
      init_camera = (Ok tt, cam')
    /\ pose_relation cam'.
Proof.
  assert (V : is_rotation_mat_valid half_turn_z = true).
  { apply is_rotation_mat_valid_det1. unfold np_linalg_det. cbn. ring. }
  assert (Hrun :
    run_calls ([SetRotationMat half_turn_z true]
               ++ [SetCameraTranslationVectorAfterRotation (Vec3 1 2 3) true])
      init_camera
    = (Ok tt,
       with_center (vec3_neg (np_dot (transpose half_turn_z) (Vec3 1 2 3)))
         (with_translation_vec (Vec3 1 2 3)
            (with_quaternion (rotation_matrix_to_quaternion half_turn_z)
               (with_rotation_mat half_turn_z init_camera))))).
  { cbn [app run_calls run_call]. unfold st_bind.
    rewrite set_rotation_mat_eq, V. cbn [andb negb].
    rewrite set_camera_translation_vector_after_rotation_eq.
    cbn [_rotation_mat with_quaternion with_rotation_mat].
    rewrite V. reflexivity. }
  eexists. split; [exact Hrun |].
  apply (pose_relation_after_calls _ _ _ _ Hrun).
  right. split; [eauto |].
  unfold is_orthogonal, mat3_mul, mat3_identity. cbn. f_equal; ring.
Defined.

(** ** Depth maps: a missing file *)

(** C5.  When the depth-map path is no file, [get_depth_map] yields [None]
    and [convert_depth_map_to_world_coords] then raises [AttributeError]
    on [None.shape]: the unprojection fails instead of yielding no data. *)
Theorem convert_depth_map_missing_file (isfile : string -> bool)
    (cam : Camera) (fp : string) (sparsity : Z)
    (Hfp : depth_map_fp cam = Some fp)
    (Hmissing : isfile fp = false)
    (Hsparsity : (0 < sparsity)%Z) :
  get_depth_map isfile cam = Ok None
  /\ convert_depth_map_to_world_coords isfile cam sparsity
     = Raise AttributeError.
Proof.
  assert (H : get_depth_map isfile cam = Ok None).
  { unfold get_depth_map. rewrite Hfp, Hmissing. reflexivity. }
  split; [exact H |].
  unfold convert_depth_map_to_world_coords. rewrite H.
  apply Z.ltb_lt in Hsparsity. rewrite Hsparsity. reflexivity.
Qed.

Lemma convert_depth_map_missing_file_witness :
  get_depth_map no_file two_pixel_camera = Ok None
  /\ convert_depth_map_to_world_coords no_file two_pixel_camera 100
     = Raise AttributeError.
Proof.
  apply (convert_depth_map_missing_file no_file two_pixel_camera
           "depth/0001.bin" 100 eq_refl eq_refl).
  reflexivity.
Defined.

(** ** Quaternions and rotation matrices *)

Lemma quaternion_to_rotation_matrix_unit (w x y z : R) :
  w * w + x * x + y * y + z * z = 1 ->
  quaternion_to_rotation_matrix (Quat w x y z) = matrix_of_components w x y z.
Proof.
  intros H. unfold quaternion_to_rotation_matrix. cbn [qw qx qy qz].
  rewrite H, sqrt_1, (Rltb_true 0 1) by lra.
  unfold matrix_of_components. f_equal; field.
Qed.

Lemma rotation_matrix_to_quaternion_by_branch (m : mat3) :
  rotation_matrix_to_quaternion m =
    match selected_branch m with
    | TraceBranch =>
        let w := sqrt (1 + m00 m + m11 m + m22 m) / 2 in
        Quat w ((m21 m - m12 m) / (4 * w)) ((m02 m - m20 m) / (4 * w))
             ((m10 m - m01 m) / (4 * w))
    | Diagonal0Branch =>
        let s := 2 * sqrt (1 + m00 m - m11 m - m22 m) in
        Quat ((m12 m - m21 m) / s) (0.25 * s) ((m01 m + m10 m) / s)
             ((m02 m + m20 m) / s)
    | Diagonal1Branch =>
        let s := 2 * sqrt (1 + m11 m - m00 m - m22 m) in
        Quat ((m02 m - m20 m) / s) ((m01 m + m10 m) / s) (0.25 * s)
             ((m12 m + m21 m) / s)
    | Diagonal2Branch =>
        let s := 2 * sqrt (1 + m22 m - m00 m - m11 m) in
        Quat ((m01 m - m10 m) / s) ((m02 m + m20 m) / s)
             ((m12 m + m21 m) / s) (0.25 * s)
    end.
Proof.
  unfold rotation_matrix_to_quaternion, selected_branch. cbv zeta.
  destruct (Rltb trace_eps (1 + m00 m + m11 m + m22 m)); [reflexivity |].
  destruct (Rltb (m11 m) (m00 m) && Rltb (m22 m) (m00 m)); [reflexivity |].
  destruct (Rltb (m22 m) (m11 m)); reflexivity.
Qed.

(** In each case the number under the square root is positive, so that
    [math.sqrt] is defined and no divisor is zero: the embedding loses
    nothing by using the total [sqrt] and [/] of the reals. *)
Lemma selected_branch_radicand_pos (m : mat3) :
  0 < match selected_branch m with
      | TraceBranch => 1 + m00 m + m11 m + m22 m
      | Diagonal0Branch => 1 + m00 m - m11 m - m22 m
      | Diagonal1Branch => 1 + m11 m - m00 m - m22 m
      | Diagonal2Branch => 1 + m22 m - m00 m - m11 m
      end.
Proof.
  unfold selected_branch, Rltb, trace_eps.
  destruct (Rlt_dec (1 / 1000000000) (1 + m00 m + m11 m + m22 m)); [lra |].
  destruct (Rlt_dec (m11 m) (m00 m)), (Rlt_dec (m22 m) (m00 m)),
    (Rlt_dec (m22 m) (m11 m)); cbn; lra.
Qed.

Section ProperRotation.

(** The entries of a proper rotation: orthonormal rows, determinant 1. *)
Variables a b c d e f g h i : R.
Hypothesis row00 : a * a + b * b + c * c = 1.
Hypothesis row11 : d * d + e * e + f * f = 1.
Hypothesis row22 : g * g + h * h + i * i = 1.
Hypothesis row01 : a * d + b * e + c * f = 0.
Hypothesis row02 : a * g + b * h + c * i = 0.
Hypothesis row12 : d * g + e * h + f * i = 0.
Hypothesis det1 :
  a * (e * i - f * h) - b * (d * i - f * g) + c * (d * h - e * g) = 1.

(** Each entry is its own cofactor. *)
Lemma proper_rotation_cofactors :
  a = e * i - f * h /\ b = f * g - d * i /\ c = d * h - e * g
  /\ d = c * h - b * i /\ e = a * i - c * g /\ f = b * g - a * h
  /\ g = b * f - c * e /\ h = c * d - a * f /\ i = a * e - b * d.
Proof. repeat split; nsatz. Qed.

(** The columns are orthonormal as well. *)
Lemma proper_rotation_columns :
  a * a + d * d + g * g = 1 /\ b * b + e * e + h * h = 1
  /\ c * c + f * f + i * i = 1 /\ a * b + d * e + g * h = 0
  /\ a * c + d * f + g * i = 0 /\ b * c + e * f + h * i = 0.
Proof. repeat split; nsatz. Qed.

(** Clears denominators, replaces the powers of the root [r] by the
    radicand, and closes the goal linearly from the quadratic relations
    of the matrix. *)
Ltac rotation_identity r Hr :=
  destruct proper_rotation_cofactors as (? & ? & ? & ? & ? & ? & ? & ? & ?);
  destruct proper_rotation_columns as (? & ? & ? & ? & ? & ?);
  pose proof (f_equal (fun t => t * t) Hr) as Hr4; cbv beta in Hr4;
  field_simplify_eq; [| lra];
  replace (r ^ 4) with ((r * r) * (r * r)) by ring;
  replace (r ^ 2) with (r * r) by ring;
  rewrite ?Hr; lra.

Lemma trace_branch_round_trip (r : R) :
  r * r = 1 + a + e + i -> r <> 0 ->
  let w := r / 2 in
  let x := (h - f) / (4 * w) in
  let y := (c - g) / (4 * w) in
  let z := (d - b) / (4 * w) in
  w * w + x * x + y * y + z * z = 1
  /\ matrix_of_components w x y z = Mat3 a b c d e f g h i.
Proof.
  intros Hr Hr0. cbv zeta. unfold matrix_of_components.
  split; [| f_equal]; rotation_identity r Hr.
Qed.

Lemma diagonal0_branch_round_trip (r : R) :
  r * r = 1 + a - e - i -> r <> 0 ->
  let s := 2 * r in
  let w := (f - h) / s in
  let x := 0.25 * s in
  let y := (b + d) / s in
  let z := (c + g) / s in
  w * w + x * x + y * y + z * z = 1
  /\ matrix_of_components w x y z = Mat3 a d g b e h c f i.
Proof.
  intros Hr Hr0. cbv zeta. unfold matrix_of_components.
  split; [| f_equal]; rotation_identity r Hr.
Qed.

Lemma diagonal1_branch_round_trip (r : R) :
  r * r = 1 + e - a - i -> r <> 0 ->
  let s := 2 * r in
  let w := (c - g) / s in
  let x := (b + d) / s in
  let y := 0.25 * s in
  let z := (f + h) / s in
  w * w + x * x + y * y + z * z = 1
  /\ matrix_of_components w x y z = Mat3 a b c d e f g h i.
Proof.
  intros Hr Hr0. cbv zeta. unfold matrix_of_components.
  split; [| f_equal]; rotation_identity r Hr.
Qed.

Lemma diagonal2_branch_round_trip (r : R) :
  r * r = 1 + i - a - e -> r <> 0 ->
  let s := 2 * r in
  let w := (b - d) / s in
  let x := (c + g) / s in
  let y := (f + h) / s in
  let z := 0.25 * s in
  w * w + x * x + y * y + z * z = 1
  /\ matrix_of_components w x y z = Mat3 a d g b e h c f i.
Proof.
  intros Hr Hr0. cbv zeta. unfold matrix_of_components.
  split; [| f_equal]; rotation_identity r Hr.
Qed.

End ProperRotation.

(** What the round trip does to a proper rotation, case by case: the
    trace case and the [m[1][1]] case give the matrix back; the [m[0][0]]
    and [m[2][2]] cases, which compute [q[0]] with the opposite sign,
    give its transpose. *)
Lemma round_trip_by_branch (m : mat3) :
  is_orthogonal m -> np_linalg_det m = 1 ->
  round_trip m =
    match selected_branch m with
    | TraceBranch | Diagonal1Branch => m
    | Diagonal0Branch | Diagonal2Branch => transpose m
    end.
Proof.
  intros Horth Hdet. pose proof (selected_branch_radicand_pos m) as Hpos.
  unfold round_trip. rewrite rotation_matrix_to_quaternion_by_branch.
  destruct m as [a b c d e f g h i].
  unfold is_orthogonal, mat3_mul, transpose, mat3_identity in Horth.
  cbn in Horth. injection Horth as H1 H2 H3 H4 H5 H6 H7 H8 H9.
  unfold np_linalg_det in Hdet. cbn in Hdet.
  cbn [m00 m01 m02 m10 m11 m12 m20 m21 m22] in *.
  destruct (selected_branch (Mat3 a b c d e f g h i)); cbv zeta;
    match goal with
    | |- context [sqrt ?t] =>
        assert (Hr : sqrt t * sqrt t = t) by (apply sqrt_sqrt; lra);
        assert (Hr0 : sqrt t <> 0)
          by (pose proof (sqrt_lt_R0 t Hpos); lra);
        set (r := sqrt t) in *
    end.
  - destruct (trace_branch_round_trip a b c d e f g h i
                H1 H5 H9 H2 H3 H6 Hdet r Hr Hr0) as [N E].
    rewrite quaternion_to_rotation_matrix_unit by exact N. exact E.
  - destruct (diagonal0_branch_round_trip a b c d e f g h i
                H1 H5 H9 H2 H3 H6 Hdet r Hr Hr0) as [N E].
    rewrite quaternion_to_rotation_matrix_unit by exact N. exact E.
  - destruct (diagonal1_branch_round_trip a b c d e f g h i
                H1 H5 H9 H2 H3 H6 Hdet r Hr Hr0) as [N E].
    rewrite quaternion_to_rotation_matrix_unit by exact N. exact E.
  - destruct (diagonal2_branch_round_trip a b c d e f g h i
                H1 H5 H9 H2 H3 H6 Hdet r Hr Hr0) as [N E].
    rewrite quaternion_to_rotation_matrix_unit by exact N. exact E.
Qed.

Lemma quaternion_to_rotation_matrix_z (z : R) :
  0 < z ->
  quaternion_to_rotation_matrix (Quat 0 0 0 z) = half_turn_z.
Proof.
  intros Hz. unfold quaternion_to_rotation_matrix. cbn [qw qx qy qz].
  replace (0 * 0 + 0 * 0 + 0 * 0 + z * z) with (z * z) by ring.
  rewrite sqrt_square by lra. rewrite (Rltb_true 0 z) by lra.
  unfold half_turn_z. f_equal; field; lra.
Qed.

(** C3, as stated, fails: the point reflection [-I] has determinant [-1]
    and is accepted by [is_rotation_mat_valid], but the round trip turns
    it into the half turn about z, whose last diagonal entry is [1], not
    [-1]. *)
Lemma round_trip_point_reflection :
  is_rotation_mat_valid point_reflection = true
  /\ quaternion_to_rotation_matrix
       (rotation_matrix_to_quaternion point_reflection) = half_turn_z
  /\ ~ mat3_close (1 / 1000000000)
         (quaternion_to_rotation_matrix
            (rotation_matrix_to_quaternion point_reflection))
         point_reflection.
Proof.
  assert (E : quaternion_to_rotation_matrix
                (rotation_matrix_to_quaternion point_reflection)
              = half_turn_z).
  { rewrite rotation_matrix_to_quaternion_by_branch.
    assert (B : selected_branch point_reflection = Diagonal2Branch).
    { unfold selected_branch, point_reflection, trace_eps. cbn.
      rewrite (Rltb_false _ (1 + -1 + -1 + -1)) by lra.
      rewrite (Rltb_false (-1) (-1)) by lra. reflexivity. }
    rewrite B. unfold point_reflection. cbn.
    replace ((0 - 0) / (2 * sqrt (1 + -1 - -1 - -1))) with 0
      by (unfold Rdiv; ring).
    replace ((0 + 0) / (2 * sqrt (1 + -1 - -1 - -1))) with 0
      by (unfold Rdiv; ring).
    apply quaternion_to_rotation_matrix_z.
    assert (0 < sqrt (1 + -1 - -1 - -1)) by (apply sqrt_lt_R0; lra).
    lra. }
  split; [| split].
  - apply is_rotation_mat_valid_det_neg1.
    unfold np_linalg_det, point_reflection. cbn. ring.
  - exact E.
  - rewrite E. unfold mat3_close, half_turn_z, point_reflection. cbn.
    intros (_ & _ & _ & _ & _ & _ & _ & _ & H).
    replace (1 - -1) with 2 in H by ring.
    rewrite Rabs_pos_eq in H; lra.
Qed.

(** C3, amended.  For a proper rotation (orthogonal, determinant [1]) and
    in exact arithmetic, matrix to quaternion and back gives the matrix
    itself whenever the trace case or the [m[1][1]] case is taken, and in
    all four cases when the matrix is symmetric (a half turn).  Improper
    rotations are not reproduced. *)
Theorem round_trip_proper_rotation (m : mat3)
    (Horth : is_orthogonal m)
    (Hdet : np_linalg_det m = 1)
    (Hcase : selected_branch m = TraceBranch
             \/ selected_branch m = Diagonal1Branch
             \/ transpose m = m) :
  quaternion_to_rotation_matrix (rotation_matrix_to_quaternion m) = m.
Proof.
  pose proof (round_trip_by_branch m Horth Hdet) as H.
  unfold round_trip in H. rewrite H.
  destruct Hcase as [-> | [-> | Hsym]]; try reflexivity.
  rewrite Hsym. destruct (selected_branch m); reflexivity.
Qed.

Lemma round_trip_proper_rotation_witness :
  (selected_branch mat3_identity = TraceBranch
   /\ quaternion_to_rotation_matrix
        (rotation_matrix_to_quaternion mat3_identity) = mat3_identity)
  /\ (selected_branch half_turn_x = Diagonal0Branch
      /\ quaternion_to_rotation_matrix
           (rotation_matrix_to_quaternion half_turn_x) = half_turn_x)
  /\ (selected_branch half_turn_y = Diagonal1Branch
      /\ quaternion_to_rotation_matrix
           (rotation_matrix_to_quaternion half_turn_y) = half_turn_y)
  /\ (selected_branch half_turn_z = Diagonal2Branch
      /\ quaternion_to_rotation_matrix
           (rotation_matrix_to_quaternion half_turn_z) = half_turn_z).
Proof.
  assert (B0 : selected_branch mat3_identity = TraceBranch).
  { unfold selected_branch, mat3_identity, trace_eps. cbn.
    rewrite Rltb_true by lra. reflexivity. }
  assert (B1 : selected_branch half_turn_x = Diagonal0Branch).
  { unfold selected_branch, half_turn_x, trace_eps. cbn.
    rewrite (Rltb_false _ (1 + 1 + -1 + -1)) by lra.
    rewrite (Rltb_true (-1) 1) by lra. reflexivity. }
  assert (B2 : selected_branch half_turn_y = Diagonal1Branch).
  { unfold selected_branch, half_turn_y, trace_eps. cbn.
    rewrite (Rltb_false _ (1 + -1 + 1 + -1)) by lra.
    rewrite (Rltb_false 1 (-1)) by lra.
    rewrite (Rltb_true (-1) 1) by lra. reflexivity. }
  assert (B3 : selected_branch half_turn_z = Diagonal2Branch).
  { unfold selected_branch, half_turn_z, trace_eps. cbn.
    rewrite (Rltb_false _ (1 + -1 + -1 + 1)) by lra.
    rewrite (Rltb_false (-1) (-1)) by lra.
    rewrite (Rltb_false 1 (-1)) by lra. reflexivity. }
  repeat split; try assumption.
  - apply round_trip_proper_rotation.
    + unfold is_orthogonal, mat3_mul, mat3_identity. cbn. f_equal; ring.
    + unfold np_linalg_det, mat3_identity. cbn. ring.
    + left. exact B0.
  - apply round_trip_proper_rotation.
    + unfold is_orthogonal, mat3_mul, mat3_identity. cbn. f_equal; ring.
    + unfold np_linalg_det. cbn. ring.
    + right. right. reflexivity.
  - apply round_trip_proper_rotation.
    + unfold is_orthogonal, mat3_mul, mat3_identity. cbn. f_equal; ring.
    + unfold np_linalg_det. cbn. ring.
    + right. left. exact B2.
  - apply round_trip_proper_rotation.
    + unfold is_orthogonal, mat3_mul, mat3_identity. cbn. f_equal; ring.
    + unfold np_linalg_det. cbn. ring.
    + right. right. reflexivity.
Defined.

(** ** Depth maps: the unprojection *)

(** [convert_depth_map_to_world_coords] is the assertion on the sparsity,
    then [filtered_columns], the subsampling of its four arrays, and
    [scale_and_transform]. *)
Lemma convert_depth_map_to_world_coords_steps (isfile : string -> bool)
    (cam : Camera) (sparsity : Z) :
  convert_depth_map_to_world_coords isfile cam sparsity =
    (rassert (0 <? sparsity)%Z ;;
     cols <- filtered_columns isfile cam ;;
     scale_and_transform cam
       (subsample sparsity (fst (fst (fst cols))))
       (subsample sparsity (snd (fst (fst cols))))
       (subsample sparsity (snd (fst cols)))
       (subsample sparsity (snd cols)))%result.
Proof.
  unfold convert_depth_map_to_world_coords, filtered_columns,
    scale_and_transform, subsample.
  destruct (rassert (0 <? sparsity)%Z) as [[] | |]; cbn [rbind];
    try reflexivity.
  destruct (get_depth_map isfile cam) as [[dm |] | |]; cbn [rbind];
    try reflexivity.
  destruct (rassert (py_eq_int (height cam) (Z.of_nat (nd_height dm))))
    as [[] | |]; cbn [rbind]; try reflexivity.
  destruct (rassert (py_eq_int (width cam) (Z.of_nat (nd_width dm))))
    as [[] | |]; cbn [rbind]; try reflexivity.
  destruct (get_calibration_mat cam) as [k | |]; cbn [rbind];
    try reflexivity.
  destruct (get_principal_point cam) as [pp | |]; cbn [rbind];
    try reflexivity.
  match goal with
  | |- context [rassert ?b] => destruct (rassert b) as [[] | |]
  end; cbn [rbind]; try reflexivity.
  match goal with
  | |- context [np_div_scalar ?a ?d] =>
      destruct (np_div_scalar a d) as [xs | |]
  end; cbn [rbind]; try reflexivity.
  match goal with
  | |- context [np_div_scalar ?a ?d] =>
      destruct (np_div_scalar a d) as [ys | |]
  end; cbn [rbind]; reflexivity.
Qed.

(** *** Arrays as maps over positions *)

Lemma seq_offset (a n : nat) :
  seq a n = map (fun x => (a + x)%nat) (seq 0 n).
Proof.
  revert a. induction n as [| n IH]; intros a; cbn [seq map].
  - reflexivity.
  - f_equal; [lia |]. rewrite <- (seq_shift n 0), map_map, (IH (S a)).
    apply map_ext. intros x. lia.
Qed.

Lemma flat_map_grid {A} (F : nat -> nat -> A) (h w : nat) :
  flat_map (fun y => map (fun x => F y x) (seq 0 w)) (seq 0 h)
  = map (fun i => F (i / w)%nat (i mod w)%nat) (seq 0 (h * w)).
Proof.
  induction h as [| h IH].
  - reflexivity.
  - rewrite seq_S, flat_map_app, IH. cbn [flat_map plus].
    rewrite app_nil_r.
    replace (S h * w)%nat with (h * w + w)%nat by lia.
    rewrite seq_app, map_app. f_equal. cbn [plus].
    rewrite (seq_offset (h * w) w), map_map.
    apply map_ext_in. intros x Hx. apply in_seq in Hx.
    f_equal.
    + apply (Nat.div_unique _ w h x); lia.
    + apply (Nat.mod_unique _ w h x); lia.
Qed.

Lemma rev_map_seq {A} (f : nat -> A) (n : nat) :
  rev (map f (seq 0 n)) = map (fun i => f (n - 1 - i)%nat) (seq 0 n).
Proof.
  induction n as [| n IH].
  - reflexivity.
  - rewrite seq_S at 1. rewrite map_app, rev_app_distr. cbn [map rev app plus].
    rewrite IH. cbn [seq map]. f_equal.
    + f_equal. lia.
    + rewrite <- (seq_shift n 0), map_map. apply map_ext_in.
      intros i Hi. apply in_seq in Hi. f_equal. lia.
Qed.

Lemma repeat_map_seq {A} (a : A) (n : nat) :
  repeat a n = map (fun _ => a) (seq 0 n).
Proof.
  induction n as [| n IH]; [reflexivity |].
  cbn [repeat seq map]. rewrite IH, <- (seq_shift n 0), map_map. reflexivity.
Qed.

Lemma combine_map {A B C} (f : A -> B) (g : A -> C) (l : list A) :
  combine (map f l) (map g l) = map (fun i => (f i, g i)) l.
Proof. induction l as [| x l IH]; cbn; [| rewrite IH]; reflexivity. Qed.

Lemma map2_map {A B C D} (op : B -> C -> D) (f : A -> B) (g : A -> C)
    (l : list A) :
  map2 op (map f l) (map g l) = map (fun i => op (f i) (g i)) l.
Proof. unfold map2. rewrite combine_map, map_map. reflexivity. Qed.

Lemma mask_select_map {A B} (p : A -> bool) (f : A -> B) (l : list A) :
  mask_select (map p l) (map f l) = map f (filter p l).
Proof.
  unfold mask_select. rewrite combine_map.
  induction l as [| x l IH]; cbn; [reflexivity |].
  destruct (p x); cbn; rewrite IH; reflexivity.
Qed.

Lemma dstack4_map {A} (fx fy fz fh : A -> R) (l : list A) :
  dstack4 (map fx l) (map fy l) (map fz l) (map fh l)
  = map (fun i => Vec4 (fx i) (fy i) (fz i) (fh i)) l.
Proof.
  unfold dstack4. rewrite !combine_map, map_map. reflexivity.
Qed.

(** *** Slices *)

Lemma slice_from_map {A B} (f : A -> B) (k skip : nat) (l : list A) :
  map f (slice_from k skip l) = slice_from k skip (map f l).
Proof.
  revert skip. induction l as [| x l IH]; intros skip; cbn; [reflexivity |].
  destruct skip; cbn; rewrite IH; reflexivity.
Qed.

Lemma slice_from_combine {A B} (k skip : nat) (l : list A) (l' : list B) :
  combine (slice_from k skip l) (slice_from k skip l')
  = slice_from k skip (combine l l').
Proof.
  revert skip l'. induction l as [| x l IH]; intros skip l'; cbn;
    [reflexivity |].
  destruct l' as [| y l']; cbn.
  - destruct skip; [reflexivity |]. apply combine_nil.
  - destruct skip; cbn; rewrite IH; reflexivity.
Qed.

Lemma slice_from_nth_error {A} (k skip i : nat) (l : list A) :
  (0 < k)%nat ->
  nth_error (slice_from k skip l) i = nth_error l (skip + i * k).
Proof.
  intros Hk. revert skip i.
  induction l as [| x l IH]; intros skip i; cbn [slice_from].
  - rewrite !nth_error_nil. reflexivity.
  - destruct skip as [| skip].
    + destruct i as [| i]; [reflexivity |]. cbn [nth_error].
      rewrite IH. replace (0 + S i * k)%nat with (S (k - 1 + i * k)) by lia.
      reflexivity.
    + rewrite IH. reflexivity.
Qed.

Lemma subsample_map {A B} (f : A -> B) (k : Z) (l : list A) :
  map f (subsample k l) = subsample k (map f l).
Proof.
  unfold subsample, slice_step. destruct (negb (k =? 100)%Z);
    [apply slice_from_map | reflexivity].
Qed.

(** Subsampling the four arrays before [scale_and_transform] is
    subsampling the points it returns. *)
Lemma scale_and_transform_subsample (cam : Camera) (k : Z)
    (xs ys zs ds : list R) :
  scale_and_transform cam (subsample k xs) (subsample k ys)
    (subsample k zs) (subsample k ds)
  = match scale_and_transform cam xs ys zs ds with
    | Ok points => Ok (subsample k points)
    | Raise e => Raise e
    | Unmodelled => Unmodelled
    end.
Proof.
  unfold subsample. destruct (negb (k =? 100)%Z).
  - unfold scale_and_transform, slice_step, map2, dstack4.
    destruct (py_eq_str (depth_map_semantic cam)
                DEPTH_MAP_WRT_CANONICAL_VECTORS);
      [| destruct (py_eq_str (depth_map_semantic cam)
                     DEPTH_MAP_WRT_UNIT_VECTORS)];
      cbn [rbind fst snd]; try reflexivity;
      repeat (rewrite slice_from_combine || rewrite slice_from_map);
      reflexivity.
  - destruct (scale_and_transform cam xs ys zs ds); reflexivity.
Qed.

(** The arrays [filtered_columns] returns for a camera that is ready:
    the canonical rays of the mirrored positions, and the depths, of the
    surviving positions. *)
Lemma filtered_columns_ready (isfile : string -> bool) (cam : Camera)
    (a : ndarray2) :
  unprojection_ready isfile cam a ->
  filtered_columns isfile cam =
    Ok (map (fun i => v0 (canonical_ray cam (pixel_column a (mirrored a i))
                                            (pixel_row a (mirrored a i))))
            (surviving a),
        map (fun i => v1 (canonical_ray cam (pixel_column a (mirrored a i))
                                            (pixel_row a (mirrored a i))))
            (surviving a),
        map (fun _ => 1) (surviving a),
        map (depth_at a) (surviving a)).
Proof.
  intros ((fp & cb & Hfp & Hfile & Hcb & Hdec) & Hh & Hw & Hf & Hpp & Hfy
          & _).
  unfold filtered_columns, get_depth_map.
  rewrite Hfp, Hfile, Hcb, Hdec. cbn [rbind].
  rewrite Hh, Hw. cbn [py_eq_int]. rewrite !Z.eqb_refl. cbn [rassert rbind].
  unfold get_principal_point, get_calibration_mat, check_calibration_mat.
  rewrite Hf, Hpp. cbn [andb rassert rbind fst snd].
  unfold np_indices_y, np_indices_x, nd_flatten.
  rewrite (flat_map_grid (fun y _ => y)), (flat_map_grid (fun _ x => x)),
    (flat_map_grid (fun y x => nd_at a y x)).
  rewrite !rev_map_seq.
  rewrite !length_map, !length_seq, !Nat.eqb_refl. cbn [andb rassert rbind].
  unfold np_div_scalar.
  assert (Hfx : - m00 (_calibration_mat cam) <> 0).
  { unfold has_focal_length in Hf. apply Rltb_spec in Hf. lra. }
  assert (Hfy' : - m11 (_calibration_mat cam) <> 0) by lra.
  destruct (Req_dec_T (- m00 (_calibration_mat cam)) 0) as [E | _];
    [contradiction |].
  destruct (Req_dec_T (- m11 (_calibration_mat cam)) 0) as [E | _];
    [contradiction |].
  cbn [rbind]. rewrite repeat_map_seq, !map_map.
  rewrite !mask_select_map. reflexivity.
Qed.

Lemma scale_and_transform_canonical (cam : Camera) (a : ndarray2)
    (l : list nat) :
  depth_map_semantic cam = Some DEPTH_MAP_WRT_CANONICAL_VECTORS ->
  scale_and_transform cam
    (map (fun i => v0 (canonical_ray cam (pixel_column a (mirrored a i))
                                         (pixel_row a (mirrored a i)))) l)
    (map (fun i => v1 (canonical_ray cam (pixel_column a (mirrored a i))
                                         (pixel_row a (mirrored a i)))) l)
    (map (fun _ => 1) l)
    (map (depth_at a) l)
  = Ok (map (unprojected cam a) l).
Proof.
  intros Hsem. unfold scale_and_transform. rewrite Hsem.
  cbn [py_eq_str]. rewrite String.eqb_refl. cbn [rbind fst snd].
  rewrite !map2_map.
  rewrite (map_map _ (fun _ : R => 1)), dstack4_map, !map_map. reflexivity.
Qed.

(** The points returned for a camera that is ready, for any positive
    sparsity. *)
Lemma convert_depth_map_to_world_coords_ready (isfile : string -> bool)
    (cam : Camera) (a : ndarray2) (sparsity : Z) :
  unprojection_ready isfile cam a -> (0 < sparsity)%Z ->
  convert_depth_map_to_world_coords isfile cam sparsity
  = Ok (map (unprojected cam a) (subsample sparsity (surviving a))).
Proof.
  intros Hready Hk. rewrite convert_depth_map_to_world_coords_steps.
  apply Z.ltb_lt in Hk. rewrite Hk. cbn [rassert rbind].
  rewrite (filtered_columns_ready isfile cam a Hready).
  cbn [rbind fst snd]. rewrite scale_and_transform_subsample.
  rewrite scale_and_transform_canonical by apply Hready.
  rewrite subsample_map. reflexivity.
Qed.

Lemma mirrored_pixel (a : ndarray2) (x y : nat) :
  (x < nd_width a)%nat -> (y < nd_height a)%nat ->
  let i := (y * nd_width a + x)%nat in
  pixel_row a i = y /\ pixel_column a i = x
  /\ pixel_row a (mirrored a i) = (nd_height a - 1 - y)%nat
  /\ pixel_column a (mirrored a i) = (nd_width a - 1 - x)%nat
  /\ (i < nd_height a * nd_width a)%nat.
Proof.
  intros Hx Hy. cbv zeta. unfold pixel_row, pixel_column, mirrored.
  set (w := nd_width a) in *. set (h := nd_height a) in *.
  assert (Hm : (h * w - 1 - (y * w + x) = (h - 1 - y) * w + (w - 1 - x))%nat)
    by nia.
  rewrite Hm. repeat split.
  - symmetry. apply (Nat.div_unique _ w y x); lia.
  - symmetry. apply (Nat.mod_unique _ w y x); lia.
  - symmetry. apply (Nat.div_unique _ w (h - 1 - y) (w - 1 - x)); lia.
  - symmetry. apply (Nat.mod_unique _ w (h - 1 - y) (w - 1 - x)); lia.
  - nia.
Qed.

(** C2, amended.  With no subsampling and under the canonical semantic,
    the points returned are, in raster order of the pixels of positive
    depth, the cam-to-world images of [d * ray], where [d] is the depth of
    the pixel and [ray] the canonical ray of the pixel mirrored through
    the image center: the depth of pixel [(x, y)] is paired with the ray
    of pixel [(width - 1 - x, height - 1 - y)]. *)
Theorem unprojection_pairs_depth_with_mirrored_ray
    (isfile : string -> bool) (cam : Camera) (a : ndarray2)
    (Hready : unprojection_ready isfile cam a) :
  convert_depth_map_to_world_coords isfile cam 100
    = Ok (map (unprojected cam a) (surviving a))
  /\ forall x y : nat,
       (x < nd_width a)%nat -> (y < nd_height a)%nat ->
       0 < nd_at a y x ->
       unprojected cam a (y * nd_width a + x)
         = cam_to_world cam
             (vec3_scale (nd_at a y x)
                (canonical_ray cam (nd_width a - 1 - x)
                                   (nd_height a - 1 - y)))
       /\ In (cam_to_world cam
                (vec3_scale (nd_at a y x)
                   (canonical_ray cam (nd_width a - 1 - x)
                                      (nd_height a - 1 - y))))
             (map (unprojected cam a) (surviving a)).
Proof.
  split.
  - rewrite (convert_depth_map_to_world_coords_ready isfile cam a 100 Hready)
      by lia.
    reflexivity.
  - intros x y Hx Hy Hd.
    destruct (mirrored_pixel a x y Hx Hy) as (Hr & Hc & Hmr & Hmc & Hi).
    assert (E : unprojected cam a (y * nd_width a + x)
                = cam_to_world cam
                    (vec3_scale (nd_at a y x)
                       (canonical_ray cam (nd_width a - 1 - x)
                                          (nd_height a - 1 - y)))).
    { unfold unprojected, depth_at. rewrite Hr, Hc, Hmr, Hmc. reflexivity. }
    split; [exact E |]. rewrite <- E. apply in_map.
    unfold surviving. apply filter_In. split.
    + apply in_seq. lia.
    + unfold depth_at. rewrite Hr, Hc. apply Rltb_true. exact Hd.
Qed.

(** C6, amended.  Only a sparsity that is not positive is rejected; there
    is no upper bound.  With sparsity 100 the points are all returned;
    with any other positive sparsity [k], also above 100, the points
    returned are those at positions [0, k, 2k, ...] of the points returned
    without subsampling. *)
Theorem sparsity_subsampling (isfile : string -> bool) (cam : Camera)
    (k : Z) :
  ((k <= 0)%Z ->
     convert_depth_map_to_world_coords isfile cam k = Raise AssertionError)
  /\ forall full : list vec3,
       convert_depth_map_to_world_coords isfile cam 100 = Ok full ->
       (0 < k)%Z ->
       exists points,
         convert_depth_map_to_world_coords isfile cam k = Ok points
         /\ (k = 100%Z -> points = full)
         /\ (k <> 100%Z ->
             forall i : nat,
               nth_error points i = nth_error full (i * Z.to_nat k)).
Proof.
  split.
  - intros Hk. unfold convert_depth_map_to_world_coords.
    apply Z.ltb_ge in Hk. rewrite Hk. reflexivity.
  - intros full Hfull Hk.
    rewrite convert_depth_map_to_world_coords_steps in Hfull.
    rewrite convert_depth_map_to_world_coords_steps.
    cbn [Z.ltb Z.compare rassert rbind] in Hfull.
    apply Z.ltb_lt in Hk. rewrite Hk. cbn [rassert rbind].
    destruct (filtered_columns isfile cam) as [[[[xs ys] zs] ds] | |];
      try discriminate.
    cbn [rbind fst snd] in *.
    rewrite scale_and_transform_subsample in Hfull.
    rewrite scale_and_transform_subsample.
    destruct (scale_and_transform cam xs ys zs ds) as [all | |];
      try discriminate.
    injection Hfull as <-.
    exists (subsample k all). split; [reflexivity |].
    unfold subsample. split.
    + intros ->. reflexivity.
    + intros Hne i. apply Z.eqb_neq in Hne. rewrite Hne. cbn [negb Z.eqb].
      unfold slice_step. rewrite slice_from_nth_error by lia.
      reflexivity.
Qed.

(** *** The two-pixel camera *)

Lemma half_eq : 0.5 = 1 / 2.
Proof. lra. Qed.

Lemma two_pixel_camera_ready :
  unprojection_ready every_path_is_a_file two_pixel_camera two_pixel_map.
Proof.
  unfold unprojection_ready. repeat split.
  - exists "depth/0001.bin"%string, (fun _ => two_pixel_map).
    repeat split.
  - unfold has_focal_length. cbn. apply Rltb_true. lra.
  - unfold is_principal_point_initialized. cbn.
    rewrite np_isclose_zero_false by (unfold np_atol; lra).
    reflexivity.
  - cbn. lra.
Qed.

Lemma two_pixel_map_surviving : surviving two_pixel_map = [0%nat; 1%nat].
Proof.
  unfold surviving, depth_at, pixel_row, pixel_column. cbn.
  rewrite (Rltb_true 0 2), (Rltb_true 0 3) by lra. reflexivity.
Qed.

Lemma two_pixel_camera_unprojected :
  map (unprojected two_pixel_camera two_pixel_map) [0%nat; 1%nat]
  = [Vec3 (-2) 0 2; Vec3 0 0 3].
Proof.
  cbn [map]. f_equal; [| f_equal];
    unfold unprojected, cam_to_world, canonical_ray, depth_at, mirrored,
      pixel_row, pixel_column, vec3_scale, drop_hom, mat4_dot, vec4_dot;
    cbn; rewrite !half_eq; f_equal; field.
Qed.

Lemma two_pixel_camera_points (sparsity : Z) :
  (0 < sparsity)%Z ->
  convert_depth_map_to_world_coords every_path_is_a_file two_pixel_camera
    sparsity
  = Ok (subsample sparsity [Vec3 (-2) 0 2; Vec3 0 0 3]).
Proof.
  intros Hk.
  rewrite (convert_depth_map_to_world_coords_ready _ _ _ _
             two_pixel_camera_ready Hk).
  rewrite two_pixel_map_surviving, subsample_map,
    two_pixel_camera_unprojected.
  reflexivity.
Qed.

(** C2, as stated, fails: on the map [[2, 3]] the pixel [(0, 0)] has
    depth [2] and canonical ray [(0, 0, 1)], so the claim asks for the
    point [(0, 0, 2)]; the points returned are [(-2, 0, 2)] (depth [2] on
    the ray of pixel [(1, 0)]) and [(0, 0, 3)]. *)
Lemma unprojection_does_not_pair_pixel_with_own_ray :
  convert_depth_map_to_world_coords every_path_is_a_file two_pixel_camera
    100 = Ok [Vec3 (-2) 0 2; Vec3 0 0 3]
  /\ nd_at two_pixel_map 0 0 = 2
  /\ cam_to_world two_pixel_camera
       (vec3_scale (nd_at two_pixel_map 0 0)
          (canonical_ray two_pixel_camera 0 0)) = Vec3 0 0 2
  /\ ~ In (Vec3 0 0 2) [Vec3 (-2) 0 2; Vec3 0 0 3].
Proof.
  repeat split.
  - rewrite two_pixel_camera_points by lia. reflexivity.
  - unfold cam_to_world, canonical_ray, vec3_scale, drop_hom, mat4_dot,
      vec4_dot.
    cbn. rewrite !half_eq. f_equal; field.
  - intros [H | [H | []]]; injection H; intros; lra.
Qed.

Lemma unprojection_pairs_depth_with_mirrored_ray_witness :
  convert_depth_map_to_world_coords every_path_is_a_file two_pixel_camera
    100
  = Ok (map (unprojected two_pixel_camera two_pixel_map)
          (surviving two_pixel_map))
  /\ In (cam_to_world two_pixel_camera
           (vec3_scale (nd_at two_pixel_map 0 0)
              (canonical_ray two_pixel_camera (2 - 1 - 0) (1 - 1 - 0))))
        (map (unprojected two_pixel_camera two_pixel_map)
           (surviving two_pixel_map)).
Proof.
  destruct (unprojection_pairs_depth_with_mirrored_ray
              every_path_is_a_file two_pixel_camera two_pixel_map
              two_pixel_camera_ready) as [Hpoints Hpixel].
  split; [exact Hpoints |].
  apply (Hpixel 0%nat 0%nat).
  - cbn. lia.
  - cbn. lia.
  - cbn. lra.
Defined.

(** C6, as stated, fails: the sparsity 200, outside [(0, 100]], is
    accepted, and keeps the first of the two points. *)
Lemma sparsity_above_100_accepted :
  ~ (0 < 200 <= 100)%Z
  /\ convert_depth_map_to_world_coords every_path_is_a_file two_pixel_camera
       200 = Ok [Vec3 (-2) 0 2].
Proof.
  split; [lia |].
  rewrite two_pixel_camera_points by lia. reflexivity.
Qed.

Lemma sparsity_subsampling_witness :
  exists points,
    convert_depth_map_to_world_coords every_path_is_a_file two_pixel_camera
      2 = Ok points
    /\ forall i : nat,
         nth_error points i
         = nth_error [Vec3 (-2) 0 2; Vec3 0 0 3] (i * Z.to_nat 2).
Proof.
  destruct (proj2 (sparsity_subsampling every_path_is_a_file
                     two_pixel_camera 2)
              [Vec3 (-2) 0 2; Vec3 0 0 3]) as (points & Hk & _ & Hnth).
  - rewrite two_pixel_camera_points by lia. reflexivity.
  - lia.
  - exists points. split; [exact Hk |]. apply Hnth. lia.
Defined.

(** The canonical ray of the mirrored pixel, written for the pixel itself:
    the focal lengths are not negated and the principal point is mirrored
    through the image center. *)
Lemma mirrored_canonical_ray (cam : Camera) (w h x y : nat) :
  (x < w)%nat -> (y < h)%nat ->
  m00 (_calibration_mat cam) <> 0 -> m11 (_calibration_mat cam) <> 0 ->
  canonical_ray cam (w - 1 - x) (h - 1 - y)
  = Vec3 ((INR x + 0.5 - (INR w - m02 (_calibration_mat cam)))
          / m00 (_calibration_mat cam))
         ((INR y + 0.5 - (INR h - m12 (_calibration_mat cam)))
          / m11 (_calibration_mat cam))
         1.
Proof.
  intros Hx Hy Hfx Hfy. unfold canonical_ray. cbv zeta.
  replace (w - 1 - x)%nat with (w - (1 + x))%nat by lia.
  replace (h - 1 - y)%nat with (h - (1 + y))%nat by lia.
  rewrite !minus_INR, !plus_INR by lia. cbn [INR].
  rewrite !half_eq. f_equal; field; assumption.
Qed.

(** The sign of [q[0]] in the [m[0][0]] case shows on a proper rotation
    that is not symmetric: the round trip returns its transpose, which is
    further than [1e-9] from it. *)
Lemma round_trip_near_half_turn_x :
  is_orthogonal near_half_turn_x
  /\ np_linalg_det near_half_turn_x = 1
  /\ selected_branch near_half_turn_x = Diagonal0Branch
  /\ round_trip near_half_turn_x = transpose near_half_turn_x
  /\ ~ mat3_close (1 / 1000000000) (round_trip near_half_turn_x)
         near_half_turn_x.
Proof.
  assert (Ho : is_orthogonal near_half_turn_x).
  { unfold is_orthogonal, mat3_mul, transpose, mat3_identity,
      near_half_turn_x.
    cbn. f_equal; field. }
  assert (Hd : np_linalg_det near_half_turn_x = 1).
  { unfold np_linalg_det, near_half_turn_x. cbn. field. }
  assert (Hb : selected_branch near_half_turn_x = Diagonal0Branch).
  { unfold selected_branch, near_half_turn_x, trace_eps. cbn.
    rewrite Rltb_false by lra. rewrite !Rltb_true by lra. reflexivity. }
  assert (Hr : round_trip near_half_turn_x = transpose near_half_turn_x).
  { rewrite (round_trip_by_branch _ Ho Hd), Hb. reflexivity. }
  repeat split; try assumption.
  rewrite Hr. unfold mat3_close, transpose, near_half_turn_x. cbn.
  intros (_ & _ & _ & _ & _ & H & _).
  rewrite Rabs_pos_eq in H; lra.
Qed.

(** * Further properties *)

(** ** Quaternion to matrix *)

(** Every quaternion is turned into the matrix of a unit quaternion: its
    own direction, or [(1, 0, 0, 0)] when its norm is zero. *)
Lemma quaternion_to_rotation_matrix_normalised (q : quat) :
  exists w x y z : R,
    w * w + x * x + y * y + z * z = 1
    /\ quaternion_to_rotation_matrix q = matrix_of_components w x y z
    /\ (0 < quat_norm2 q ->
        w = qw q / sqrt (quat_norm2 q) /\ x = qx q / sqrt (quat_norm2 q)
        /\ y = qy q / sqrt (quat_norm2 q) /\ z = qz q / sqrt (quat_norm2 q))
    /\ (quat_norm2 q = 0 -> w = 1 /\ x = 0 /\ y = 0 /\ z = 0).
Proof.
  destruct q as [a b c d]. unfold quaternion_to_rotation_matrix, quat_norm2.
  cbn [qw qx qy qz].
  set (n := a * a + b * b + c * c + d * d).
  assert (Hn : 0 <= n) by (unfold n; nra).
  destruct (Rlt_dec 0 (sqrt n)) as [Hpos | Hzero].
  - rewrite (Rltb_true 0 (sqrt n)) by exact Hpos.
    assert (Hs : sqrt n * sqrt n = n) by (apply sqrt_sqrt; exact Hn).
    exists (a / sqrt n), (b / sqrt n), (c / sqrt n), (d / sqrt n).
    split; [| split; [reflexivity | split]].
    + transitivity (n / (sqrt n * sqrt n)).
      * set (r := sqrt n) in *. unfold n. field. lra.
      * rewrite Hs. assert (0 < n) by nra. field. lra.
    + intros _. repeat split.
    + intros H0. rewrite H0, sqrt_0 in Hpos. lra.
  - rewrite (Rltb_false 0 (sqrt n)) by lra.
    exists 1, 0, 0, 0. split; [ring | split; [reflexivity | split]].
    + intros Hp. exfalso. apply Hzero. apply sqrt_lt_R0. exact Hp.
    + intros _. repeat split.
Qed.

Lemma matrix_of_components_proper (w x y z : R) :
  w * w + x * x + y * y + z * z = 1 ->
  let m := matrix_of_components w x y z in
  is_orthogonal m /\ is_orthogonal (transpose m) /\ np_linalg_det m = 1
  /\ trace m = 4 * (w * w) - 1.
Proof.
  intros H. cbv zeta.
  unfold is_orthogonal, mat3_mul, transpose, matrix_of_components,
    mat3_identity, np_linalg_det, trace.
  cbn [m00 m01 m02 m10 m11 m12 m20 m21 m22].
  assert (H2 : (w * w + x * x + y * y + z * z) ^ 2 = 1)
    by (rewrite H; ring).
  assert (H3 : (w * w + x * x + y * y + z * z) ^ 3 = 1)
    by (rewrite H; ring).
  repeat split.
  - f_equal;
      first [ rewrite <- H2; ring
            | match goal with |- _ = 0 => ring end ].
  - f_equal;
      first [ rewrite <- H2; ring
            | match goal with |- _ = 0 => ring end ].
  - rewrite <- H3. ring.
  - replace 1 with (w * w + x * x + y * y + z * z) at 1 by exact H.
    ring.
Qed.

(** X1.  Whatever the quaternion, zero included,
    [quaternion_to_rotation_matrix] returns a proper rotation: rows and
    columns are orthonormal, the determinant is [1] and the trace lies
    between [-1] and [3]; [is_rotation_mat_valid] accepts it. *)
Theorem quaternion_to_rotation_matrix_proper (q : quat) :
  let m := quaternion_to_rotation_matrix q in
  is_orthogonal m /\ is_orthogonal (transpose m)
  /\ np_linalg_det m = 1
  /\ -1 <= trace m <= 3
  /\ is_rotation_mat_valid m = true.
Proof.
  cbv zeta.
  destruct (quaternion_to_rotation_matrix_normalised q)
    as (w & x & y & z & Hn & -> & _).
  destruct (matrix_of_components_proper w x y z Hn) as (Ho & Hc & Hd & Ht).
  repeat split; try assumption.
  - rewrite Ht. nra.
  - rewrite Ht. nra.
  - apply is_rotation_mat_valid_det1. exact Hd.
Qed.




(** X3.  The conjugate quaternion gives the transposed matrix, that is
    the inverse rotation. *)
Theorem quaternion_to_rotation_matrix_conj (q : quat) :
  quaternion_to_rotation_matrix (quat_conj q)
  = transpose (quaternion_to_rotation_matrix q).
Proof.
  destruct q as [a b c d].
  unfold quaternion_to_rotation_matrix, quat_conj. cbn [qw qx qy qz].
  replace (a * a + - b * - b + - c * - c + - d * - d)
    with (a * a + b * b + c * c + d * d) by ring.
  set (s := sqrt (a * a + b * b + c * c + d * d)).
  destruct (Rlt_dec 0 s) as [Hpos | Hzero].
  - rewrite (Rltb_true 0 s) by exact Hpos.
    unfold transpose. cbn [m00 m01 m02 m10 m11 m12 m20 m21 m22].
    f_equal; field; lra.
  - rewrite (Rltb_false 0 s) by lra.
    unfold transpose. cbn [m00 m01 m02 m10 m11 m12 m20 m21 m22].
    f_equal; ring.
Qed.

(** X4.  A quaternion of norm zero, that is the zero quaternion, is
    replaced by [(1, 0, 0, 0)]: the matrix is the identity. *)
Theorem quaternion_to_rotation_matrix_zero_norm (q : quat)
    (Hzero : quat_norm2 q = 0) :
  q = Quat 0 0 0 0 /\ quaternion_to_rotation_matrix q = mat3_identity.
Proof.
  split.
  - destruct q as [a b c d]. unfold quat_norm2 in Hzero. cbn in Hzero.
    f_equal; nra.
  - destruct (quaternion_to_rotation_matrix_normalised q)
      as (w & x & y & z & _ & -> & _ & H0).
    destruct (H0 Hzero) as (-> & -> & -> & ->).
    unfold matrix_of_components, mat3_identity. f_equal; ring.
Qed.

Lemma quaternion_to_rotation_matrix_zero_norm_witness :
  Quat 0 0 0 0 = Quat 0 0 0 0
  /\ quaternion_to_rotation_matrix (Quat 0 0 0 0) = mat3_identity.
Proof.
  apply (quaternion_to_rotation_matrix_zero_norm (Quat 0 0 0 0)).
  unfold quat_norm2. cbn. ring.
Defined.

(** ** Matrix to quaternion *)

(** X5.  Quaternion to matrix and back: a unit quaternion whose first
    component [w] is positive, with [4 w^2] above the threshold [1e-9],
    is returned as it is; with [w] negative, its opposite is returned
    (the same rotation). *)
Theorem quaternion_round_trip (q : quat)
    (Hunit : quat_norm2 q = 1)
    (Hw : trace_eps < 4 * (qw q * qw q)) :
  rotation_matrix_to_quaternion (quaternion_to_rotation_matrix q)
  = if Rltb 0 (qw q) then q else quat_scale (-1) q.
Proof.
  destruct q as [w x y z]. unfold quat_norm2 in Hunit.
  cbn [qw qx qy qz] in *.
  rewrite quaternion_to_rotation_matrix_unit by exact Hunit.
  rewrite rotation_matrix_to_quaternion_by_branch.
  assert (Ht : 1 + m00 (matrix_of_components w x y z)
               + m11 (matrix_of_components w x y z)
               + m22 (matrix_of_components w x y z) = 4 * (w * w)).
  { unfold matrix_of_components. cbn. nra. }
  unfold selected_branch. rewrite Ht, (Rltb_true trace_eps) by exact Hw.
  cbv zeta.
  unfold matrix_of_components. cbn [m01 m02 m10 m12 m20 m21].
  assert (Hw0 : w <> 0) by (unfold trace_eps in Hw; nra).
  destruct (Rlt_dec 0 w) as [Hpos | Hneg].
  - rewrite (Rltb_true 0 w) by exact Hpos.
    replace (4 * (w * w)) with ((2 * w) * (2 * w)) by ring.
    rewrite sqrt_square by lra. f_equal; field; lra.
  - rewrite (Rltb_false 0 w) by lra.
    replace (4 * (w * w)) with ((- (2 * w)) * (- (2 * w))) by ring.
    rewrite sqrt_square by lra.
    unfold quat_scale. cbn [qw qx qy qz]. f_equal; field; lra.
Qed.

Lemma quaternion_round_trip_witness :
  rotation_matrix_to_quaternion
    (quaternion_to_rotation_matrix (Quat (3 / 5) (4 / 5) 0 0))
  = if Rltb 0 (3 / 5) then Quat (3 / 5) (4 / 5) 0 0
    else quat_scale (-1) (Quat (3 / 5) (4 / 5) 0 0).
Proof.
  apply (quaternion_round_trip (Quat (3 / 5) (4 / 5) 0 0)).
  - unfold quat_norm2. cbn. field.
  - unfold trace_eps. cbn. lra.
Defined.

(** X6.  On a proper rotation, [rotation_matrix_to_quaternion] returns a
    unit quaternion, whichever of its four cases is taken. *)
Theorem rotation_matrix_to_quaternion_unit (m : mat3)
    (Horth : is_orthogonal m) (Hdet : np_linalg_det m = 1) :
  quat_norm2 (rotation_matrix_to_quaternion m) = 1.
Proof.
  pose proof (selected_branch_radicand_pos m) as Hpos.
  rewrite rotation_matrix_to_quaternion_by_branch.
  destruct m as [a b c d e f g h i].
  unfold is_orthogonal, mat3_mul, transpose, mat3_identity in Horth.
  cbn in Horth. injection Horth as H1 H2 H3 H4 H5 H6 H7 H8 H9.
  unfold np_linalg_det in Hdet. cbn in Hdet.
  cbn [m00 m01 m02 m10 m11 m12 m20 m21 m22] in *.
  unfold quat_norm2.
  destruct (selected_branch (Mat3 a b c d e f g h i)); cbv zeta;
    cbn [qw qx qy qz];
    match goal with
    | |- context [sqrt ?t] =>
        assert (Hr : sqrt t * sqrt t = t) by (apply sqrt_sqrt; lra);
        assert (Hr0 : sqrt t <> 0)
          by (pose proof (sqrt_lt_R0 t Hpos); lra);
        set (r := sqrt t) in *
    end.
  - exact (proj1 (trace_branch_round_trip a b c d e f g h i
                    H1 H5 H9 H2 H3 H6 Hdet r Hr Hr0)).
  - exact (proj1 (diagonal0_branch_round_trip a b c d e f g h i
                    H1 H5 H9 H2 H3 H6 Hdet r Hr Hr0)).
  - exact (proj1 (diagonal1_branch_round_trip a b c d e f g h i
                    H1 H5 H9 H2 H3 H6 Hdet r Hr Hr0)).
  - exact (proj1 (diagonal2_branch_round_trip a b c d e f g h i
                    H1 H5 H9 H2 H3 H6 Hdet r Hr Hr0)).
Qed.

Lemma rotation_matrix_to_quaternion_unit_witness :
  quat_norm2 (rotation_matrix_to_quaternion half_turn_x) = 1.
Proof.
  apply (rotation_matrix_to_quaternion_unit half_turn_x).
  - unfold is_orthogonal, mat3_mul, mat3_identity. cbn. f_equal; ring.
  - unfold np_linalg_det. cbn. ring.
Defined.

Lemma sum_of_squares_pos (a b c d : R) :
  0 < a \/ 0 < b \/ 0 < c \/ 0 < d ->
  0 < a * a + b * b + c * c + d * d.
Proof. intros [H | [H | [H | H]]]; nra. Qed.

(** X7.  For every matrix, rotation or not, the case that
    [rotation_matrix_to_quaternion] takes has a positive number under its
    square root, and the component computed from the root, by which the
    other three are divided, is positive: no domain error, no division by
    zero, and never the zero quaternion. *)
Theorem rotation_matrix_to_quaternion_pivot (m : mat3) :
  let q := rotation_matrix_to_quaternion m in
  match selected_branch m with
  | TraceBranch =>
      0 < 1 + m00 m + m11 m + m22 m /\ 0 < qw q
  | Diagonal0Branch =>
      0 < 1 + m00 m - m11 m - m22 m /\ 0 < qx q
  | Diagonal1Branch =>
      0 < 1 + m11 m - m00 m - m22 m /\ 0 < qy q
  | Diagonal2Branch =>
      0 < 1 + m22 m - m00 m - m11 m /\ 0 < qz q
  end
  /\ 0 < quat_norm2 q.
Proof.
  cbv zeta. pose proof (selected_branch_radicand_pos m) as Hpos.
  rewrite rotation_matrix_to_quaternion_by_branch. unfold quat_norm2.
  destruct (selected_branch m); cbv zeta; cbn [qw qx qy qz];
    pose proof (sqrt_lt_R0 _ Hpos) as Hs;
    match goal with
    | |- context [sqrt ?t] => set (r := sqrt t) in *
    end.
  - split; [split; [exact Hpos | lra] |].
    apply sum_of_squares_pos. left. lra.
  - split; [split; [exact Hpos | lra] |].
    apply sum_of_squares_pos. right. left. lra.
  - split; [split; [exact Hpos | lra] |].
    apply sum_of_squares_pos. right. right. left. lra.
  - split; [split; [exact Hpos | lra] |].
    apply sum_of_squares_pos. right. right. right. lra.
Qed.

(** ** Validity of a rotation matrix *)

(** X8.  [is_rotation_mat_valid] looks at the determinant only: a matrix
    is accepted exactly when the absolute value of its determinant is
    within [1.001e-5] of [1].  Orthogonality is not tested: the shear
    [shear_x] is accepted. *)
Theorem is_rotation_mat_valid_iff (m : mat3) :
  (is_rotation_mat_valid m = true
   <-> Rabs (Rabs (np_linalg_det m) - 1) <= det_tolerance)
  /\ is_rotation_mat_valid shear_x = true
  /\ ~ is_orthogonal shear_x.
Proof.
  split; [| split].
  - unfold is_rotation_mat_valid, np_isclose, np_atol, np_rtol,
      det_tolerance, Rleb.
    cbv zeta. set (d := np_linalg_det m).
    rewrite orb_true_iff.
    destruct (Rle_dec (Rabs (d - 1)) (1 / 100000000 + 1 / 100000 * Rabs 1))
      as [H1 | H1];
      destruct (Rle_dec (Rabs (d - -1))
                  (1 / 100000000 + 1 / 100000 * Rabs (-1))) as [H2 | H2];
      revert H1 H2; unfold Rabs;
      repeat destruct Rcase_abs; intros H1 H2; split; intros H;
      try lra; try (left; reflexivity); try (right; reflexivity);
      destruct H; discriminate.
  - apply is_rotation_mat_valid_det1. unfold np_linalg_det, shear_x. cbn.
    ring.
  - unfold is_orthogonal, mat3_mul, transpose, shear_x, mat3_identity. cbn.
    intros [= H _]. lra.
Qed.

(** ** Pose setters *)







(** X11.  [set_4x4_cam_to_world_mat] and [get_4x4_cam_to_world_mat]: a
    matrix that is set is read back with its first three rows as they
    were and [(0, 0, 0, 1)] as the last row, and [t = -R C] holds; writing
    back the matrix read from a camera keeps its rotation matrix and its
    center. *)
Theorem cam_to_world_mat_round_trip (cam : Camera) (m : mat4)
    (check_rotation : bool) :
  (forall cam',
      set_4x4_cam_to_world_mat m check_rotation cam = (Ok tt, cam') ->
      get_4x4_cam_to_world_mat cam'
        = Mat4 (row0 m) (row1 m) (row2 m) (Vec4 0 0 0 1)
      /\ pose_relation cam')
  /\ (let cam' := snd (set_4x4_cam_to_world_mat
                         (get_4x4_cam_to_world_mat cam) false cam) in
      _rotation_mat cam' = _rotation_mat cam /\ _center cam' = _center cam).
Proof.
  split.
  - intros cam'. unfold set_4x4_cam_to_world_mat, st_bind.
    rewrite set_rotation_mat_eq.
    destruct (check_rotation
              && negb (is_rotation_mat_valid
                         (transpose (mat4_upper_left m)))); [discriminate |].
    rewrite set_camera_center_after_rotation_eq.
    destruct (check_rotation && negb (is_rotation_mat_valid _));
      [discriminate |].
    intros [= <-]. split.
    + destruct m as [[a0 a1 a2 a3] [b0 b1 b2 b3] [c0 c1 c2 c3] r3].
      reflexivity.
    + unfold pose_relation. reflexivity.
  - cbv zeta. unfold set_4x4_cam_to_world_mat, st_bind.
    rewrite set_rotation_mat_eq. cbn [andb].
    rewrite set_camera_center_after_rotation_eq. cbn [andb].
    cbn [snd _rotation_mat _center with_rotation_mat with_quaternion
         with_center with_translation_vec].
    unfold get_4x4_cam_to_world_mat, get_rotation_mat, get_camera_center,
      mat4_upper_left, mat4_last_column, transpose.
    cbn [row0 row1 row2 h0 h1 h2 h3 m00 m01 m02 m10 m11 m12 m20 m21 m22].
    destruct (_rotation_mat cam), (_center cam). split; reflexivity.
Qed.

Lemma cam_to_world_mat_round_trip_witness :
  exists cam',
    set_4x4_cam_to_world_mat translation_4x4 true init_camera = (Ok tt, cam')
    /\ get_4x4_cam_to_world_mat cam' = translation_4x4
    /\ pose_relation cam'.
Proof.
  assert (V : is_rotation_mat_valid
                (transpose (mat4_upper_left translation_4x4)) = true).
  { apply is_rotation_mat_valid_det1. unfold np_linalg_det. cbn. ring. }
  assert (E : exists cam',
             set_4x4_cam_to_world_mat translation_4x4 true init_camera
             = (Ok tt, cam')).
  { unfold set_4x4_cam_to_world_mat, st_bind.
    rewrite set_rotation_mat_eq, V. cbn [andb negb].
    rewrite set_camera_center_after_rotation_eq.
    cbn [_rotation_mat with_quaternion with_rotation_mat].
    rewrite V. cbn [andb negb]. eexists. reflexivity. }
  destruct E as (cam' & E). exists cam'. split; [exact E |].
  exact (proj1 (cam_to_world_mat_round_trip init_camera translation_4x4 true)
           cam' E).
Defined.

(** X12.  The matrix of [get_4x4_cam_to_world_mat] undoes the map
    [X -> R X + t] from world to camera coordinates, and is undone by it,
    when the stored rotation is orthogonal and [t = -R C] holds. *)
Theorem cam_to_world_inverts_world_to_cam (cam : Camera) (p : vec3)
    (Hrows : is_orthogonal (_rotation_mat cam))
    (Hcols : is_orthogonal (transpose (_rotation_mat cam)))
    (Hpose : pose_relation cam) :
  cam_to_world cam
    (vec3_add (np_dot (_rotation_mat cam) p) (_translation_vec cam)) = p
  /\ vec3_add (np_dot (_rotation_mat cam) (cam_to_world cam p))
       (_translation_vec cam) = p.
Proof.
  unfold pose_relation in Hpose. rewrite Hpose.
  unfold cam_to_world, get_4x4_cam_to_world_mat, get_rotation_mat,
    get_camera_center, mat4_dot, vec4_dot, drop_hom, vec3_add.
  destruct (_rotation_mat cam) as [a b c d e f g h i].
  destruct (_center cam) as [c0 c1 c2]. destruct p as [x y z].
  unfold is_orthogonal, mat3_mul, transpose, mat3_identity in Hrows, Hcols.
  cbn in Hrows, Hcols.
  injection Hrows as R1 R2 R3 R4 R5 R6 R7 R8 R9.
  injection Hcols as C1 C2 C3 C4 C5 C6 C7 C8 C9.
  unfold np_dot, transpose, vec3_neg. cbn.
  split; f_equal; nsatz.
Qed.

Lemma cam_to_world_inverts_world_to_cam_witness :
  cam_to_world two_pixel_camera
    (vec3_add (np_dot (_rotation_mat two_pixel_camera) (Vec3 1 2 3))
       (_translation_vec two_pixel_camera)) = Vec3 1 2 3
  /\ vec3_add (np_dot (_rotation_mat two_pixel_camera)
                 (cam_to_world two_pixel_camera (Vec3 1 2 3)))
       (_translation_vec two_pixel_camera) = Vec3 1 2 3.
Proof.
  apply (cam_to_world_inverts_world_to_cam two_pixel_camera (Vec3 1 2 3)).
  - unfold is_orthogonal, mat3_mul, mat3_identity. cbn. f_equal; ring.
  - unfold is_orthogonal, mat3_mul, mat3_identity. cbn. f_equal; ring.
  - unfold pose_relation, vec3_neg, np_dot. cbn. unfold vec3_zero.
    f_equal; ring.
Defined.

(** ** Intrinsics *)

Lemma np_isclose_zero (x : R) :
  np_isclose x 0 = false <-> np_atol < Rabs x.
Proof.
  unfold np_isclose, Rleb. rewrite Rabs_R0.
  replace (x - 0) with x by ring.
  replace (np_atol + np_rtol * 0) with np_atol by ring.
  destruct (Rle_dec (Rabs x) np_atol); split; intros H;
    try discriminate; try reflexivity; lra.
Qed.

Lemma intrinsics_usable_aux (cam : Camera) :
  has_intrinsics cam = true
  <-> 0 < m00 (_calibration_mat cam)
      /\ 1 / 100000000 < Rabs (m02 (_calibration_mat cam))
      /\ 1 / 100000000 < Rabs (m12 (_calibration_mat cam)).
Proof.
  unfold has_intrinsics, has_focal_length, is_principal_point_initialized.
  cbv zeta.
  rewrite !andb_true_iff, !negb_true_iff, Rltb_spec, !np_isclose_zero.
  unfold np_atol. tauto.
Qed.

(** X13.  The intrinsics are usable exactly when the focal length
    [K[0][0]] is positive and both coordinates of the principal point are
    further than [1e-8] from zero; then [get_calibration_mat] and
    [get_principal_point] return the stored values, and otherwise both
    raise.  A principal point with a zero coordinate counts as not
    initialised. *)
Theorem intrinsics_usable (cam : Camera) :
  let k := _calibration_mat cam in
  (has_intrinsics cam = true
   <-> 0 < m00 k /\ 1 / 100000000 < Rabs (m02 k)
       /\ 1 / 100000000 < Rabs (m12 k))
  /\ (has_intrinsics cam = true ->
      get_calibration_mat cam = Ok k
      /\ get_principal_point cam = Ok (m02 k, m12 k))
  /\ (has_intrinsics cam = false ->
      get_calibration_mat cam = Raise AssertionError
      /\ get_principal_point cam = Raise AssertionError).
Proof.
  cbv zeta.
  unfold get_principal_point, get_calibration_mat, check_calibration_mat,
    has_intrinsics.
  split; [| split].
  - apply intrinsics_usable_aux.
  - intros ->. split; reflexivity.
  - intros ->. split; reflexivity.
Qed.

(** X14.  A calibration matrix built by [compute_calibration_mat] and
    stored by [set_calibration_mat] or by [set_calibration] is read back:
    the focal length always, the principal point and the matrix when the
    values are usable. *)
Theorem calibration_round_trip (cam : Camera) (f cx cy : R)
    (distortion : option R)
    (Hf : 0 < f)
    (Hcx : 1 / 100000000 < Rabs cx)
    (Hcy : 1 / 100000000 < Rabs cy) :
  let k := compute_calibration_mat f cx cy in
  forall cam',
    cam' = snd (set_calibration_mat k cam)
    \/ cam' = snd (set_calibration k distortion cam) ->
    get_focal_length cam' = f
    /\ has_intrinsics cam' = true
    /\ get_calibration_mat cam' = Ok k
    /\ get_principal_point cam' = Ok (cx, cy).
Proof.
  cbv zeta. intros cam' Hcam'.
  assert (Hk : _calibration_mat cam' = compute_calibration_mat f cx cy).
  { destruct Hcam' as [-> | ->]; reflexivity. }
  assert (Hu : has_intrinsics cam' = true).
  { apply (proj2 (intrinsics_usable_aux cam')). rewrite Hk. cbn.
    repeat split; assumption. }
  pose proof Hu as Hu'. unfold has_intrinsics in Hu'.
  unfold get_focal_length, get_principal_point, get_calibration_mat,
    check_calibration_mat.
  rewrite Hu', Hk. repeat split. exact Hu.
Qed.

Lemma calibration_round_trip_witness :
  get_focal_length
    (snd (set_calibration (compute_calibration_mat 500 320 240) (Some 0)
            init_camera)) = 500
  /\ has_intrinsics
       (snd (set_calibration (compute_calibration_mat 500 320 240) (Some 0)
               init_camera)) = true
  /\ get_calibration_mat
       (snd (set_calibration (compute_calibration_mat 500 320 240) (Some 0)
               init_camera)) = Ok (compute_calibration_mat 500 320 240)
  /\ get_principal_point
       (snd (set_calibration (compute_calibration_mat 500 320 240) (Some 0)
               init_camera)) = Ok (320, 240).
Proof.
  apply (calibration_round_trip init_camera 500 320 240 (Some 0)).
  - lra.
  - rewrite Rabs_pos_eq; lra.
  - rewrite Rabs_pos_eq; lra.
  - right. reflexivity.
Defined.

(** X15.  [set_principal_point] writes the two entries [K[0][2]] and
    [K[1][2]] and nothing else: the focal length and the other entries of
    the calibration matrix, and every other attribute, stay; the point is
    read back by [get_principal_point] when the intrinsics are usable
    afterwards, and the query raises when a coordinate is within [1e-8]
    of zero. *)
Theorem set_principal_point_frame (cam : Camera) (px py : R) :
  let cam' := snd (set_principal_point (px, py) cam) in
  let k := _calibration_mat cam in
  fst (set_principal_point (px, py) cam) = Ok tt
  /\ _calibration_mat cam'
     = Mat3 (m00 k) (m01 k) px (m10 k) (m11 k) py (m20 k) (m21 k) (m22 k)
  /\ cam' = with_calibration_mat (_calibration_mat cam') cam
  /\ get_focal_length cam' = get_focal_length cam
  /\ has_focal_length cam' = has_focal_length cam
  /\ (has_focal_length cam = true ->
      1 / 100000000 < Rabs px -> 1 / 100000000 < Rabs py ->
      get_principal_point cam' = Ok (px, py))
  /\ (Rabs px <= 1 / 100000000 \/ Rabs py <= 1 / 100000000 ->
      get_principal_point cam' = Raise AssertionError).
Proof.
  cbv zeta. repeat split.
  - intros Hf Hx Hy.
    assert (Hu : has_intrinsics (snd (set_principal_point (px, py) cam))
                 = true).
    { apply intrinsics_usable_aux. cbn. unfold has_focal_length in Hf.
      apply Rltb_spec in Hf. repeat split; assumption. }
    unfold has_intrinsics in Hu.
    unfold get_principal_point, get_calibration_mat, check_calibration_mat.
    rewrite Hu. reflexivity.
  - intros Hzero.
    assert (Hu : has_intrinsics (snd (set_principal_point (px, py) cam))
                 = false).
    { apply not_true_is_false. intros Hu.
      apply intrinsics_usable_aux in Hu. cbn in Hu. lra. }
    unfold has_intrinsics in Hu.
    unfold get_principal_point, get_calibration_mat, check_calibration_mat.
    rewrite Hu. reflexivity.
Qed.

(** ** Paths *)

Lemma os_path_join_eq (a b : string) :
  os_path_join a b =
    if starts_with_slash b then b
    else match a with
         | EmptyString => b
         | _ => if ends_with_slash a then (a ++ b)%string
                else (a ++ "/" ++ b)%string
         end.
Proof.
  unfold os_path_join, starts_with_slash.
  destruct b as [| c b']; [reflexivity |].
  destruct c as [[] [] [] [] [] [] [] []]; reflexivity.
Qed.

Lemma basename_from_app_slash (acc a b : string) :
  basename_from acc (a ++ String "/" b) = basename_from EmptyString b.
Proof.
  revert acc. induction a as [| c a IH]; intros acc; cbn.
  - reflexivity.
  - destruct (Ascii.eqb c "/"); apply IH.
Qed.

Lemma basename_from_ends_with_slash (acc a b : string) :
  ends_with_slash a = true ->
  basename_from acc (a ++ b) = basename_from EmptyString b.
Proof.
  revert acc. induction a as [| c a IH]; intros acc H.
  - discriminate.
  - destruct a as [| c' a'].
    + cbn in H. cbn. rewrite H. reflexivity.
    + change (String c (String c' a') ++ b)%string
        with (String c (String c' a' ++ b)).
      cbn [basename_from].
      change (ends_with_slash (String c (String c' a')))
        with (ends_with_slash (String c' a')) in H.
      destruct (Ascii.eqb c "/"); apply (IH _ H).
Qed.

Lemma basename_from_starts_with_slash (acc b : string) :
  starts_with_slash b = true ->
  basename_from acc b = basename_from EmptyString b.
Proof.
  destruct b as [| c b]; [discriminate |]. cbn. intros ->. reflexivity.
Qed.

(** The file name of a joined path is the file name of its second part. *)
Lemma os_path_basename_join (a b : string) :
  os_path_basename (os_path_join a b) = os_path_basename b.
Proof.
  unfold os_path_basename. rewrite os_path_join_eq.
  destruct (starts_with_slash b) eqn:Hb; [reflexivity |].
  destruct a as [| c a]; [reflexivity |].
  destruct (ends_with_slash (String c a)) eqn:He.
  - apply basename_from_ends_with_slash. exact He.
  - apply (basename_from_app_slash EmptyString (String c a) b).
Qed.

Lemma has_slash_app_char (acc : string) (c : ascii) :
  has_slash acc = false -> Ascii.eqb c "/" = false ->
  has_slash (acc ++ String c EmptyString) = false.
Proof.
  intros Hacc Hc. induction acc as [| d acc IH]; cbn.
  - rewrite Hc. reflexivity.
  - cbn in Hacc. apply orb_false_iff in Hacc. destruct Hacc as [Hd Hacc].
    rewrite Hd, (IH Hacc). reflexivity.
Qed.

Lemma basename_from_no_slash (acc p : string) :
  has_slash acc = false -> has_slash (basename_from acc p) = false.
Proof.
  revert acc. induction p as [| c p IH]; intros acc Hacc; cbn.
  - exact Hacc.
  - destruct (Ascii.eqb c "/") eqn:Hc.
    + apply IH. reflexivity.
    + apply IH. apply has_slash_app_char; assumption.
Qed.

Lemma basename_from_id (acc p : string) :
  has_slash p = false -> basename_from acc p = (acc ++ p)%string.
Proof.
  revert acc. induction p as [| c p IH]; intros acc Hp; cbn.
  - induction acc as [| d acc IHa]; cbn; [| rewrite <- IHa]; reflexivity.
  - cbn in Hp. apply orb_false_iff in Hp. destruct Hp as [Hc Hp].
    rewrite Hc, (IH _ Hp).
    induction acc as [| d acc IHa]; cbn; [| rewrite IHa]; reflexivity.
Qed.

(** X16.  [get_file_name] does not depend on the image directory: under
    the NAME and RELATIVE modes, with directory and relative path set, it
    is the file name of the relative path; under ABSOLUTE it is the file
    name of the absolute path.  It never contains a slash. *)
Theorem get_file_name_by_mode (cam : Camera) (mode : string)
    (Hmode : image_fp_type cam = Some mode) :
  (forall dp fp,
      mode = IMAGE_FP_TYPE_NAME \/ mode = IMAGE_FP_TYPE_RELATIVE ->
      image_dp cam = Some dp -> _relative_fp cam = Some fp ->
      get_file_name cam = Ok (os_path_basename fp))
  /\ (forall fp,
         mode = IMAGE_FP_TYPE_ABSOLUTE -> _absolute_fp cam = Some fp ->
         get_file_name cam = Ok (os_path_basename fp))
  /\ (forall name, get_file_name cam = Ok name -> has_slash name = false).
Proof.
  unfold get_file_name, get_absolute_fp, _get_absolute_fp.
  rewrite Hmode. split; [| split].
  - intros dp fp [-> | ->] -> ->; cbn.
    + rewrite os_path_basename_join. unfold os_path_basename.
      rewrite (basename_from_id EmptyString);
        [reflexivity | apply basename_from_no_slash; reflexivity].
    + rewrite os_path_basename_join. reflexivity.
  - intros fp -> ->. reflexivity.
  - intros name H.
    match type of H with
    | rbind ?r _ = _ => destruct r as [p | |]; try discriminate
    end.
    cbn in H. injection H as <-.
    apply basename_from_no_slash. reflexivity.
Qed.

Lemma get_file_name_by_mode_witness :
  get_file_name camera_by_name = Ok (os_path_basename "sub/img.png")
  /\ get_file_name camera_by_name = Ok "img.png"%string.
Proof.
  split.
  - apply (proj1 (get_file_name_by_mode camera_by_name IMAGE_FP_TYPE_NAME
                    eq_refl) "/data"%string "sub/img.png"%string).
    + left. reflexivity.
    + reflexivity.
    + reflexivity.
  - reflexivity.
Defined.

(** X17.  With a mode that is none of NAME, RELATIVE and ABSOLUTE (or
    never set), no path is ever returned: the four path queries and
    [get_file_name] raise, whatever paths are stored, and
    [has_undistorted_absolute_fp] answers [False] without looking at the
    file system. *)
Theorem unknown_mode_no_path (isfile : string -> bool) (cam : Camera)
    (Hname : image_fp_type cam <> Some IMAGE_FP_TYPE_NAME)
    (Hrel : image_fp_type cam <> Some IMAGE_FP_TYPE_RELATIVE)
    (Habs : image_fp_type cam <> Some IMAGE_FP_TYPE_ABSOLUTE) :
  get_relative_fp cam = Raise AssertionError
  /\ get_absolute_fp cam = Raise AssertionError
  /\ get_undistorted_relative_fp cam = Raise AssertionError
  /\ get_undistored_absolute_fp cam = Raise AssertionError
  /\ get_file_name cam = Raise AssertionError
  /\ has_undistorted_absolute_fp isfile cam = Ok false.
Proof.
  assert (E : forall s, image_fp_type cam <> Some s ->
                        py_eq_str (image_fp_type cam) s = false).
  { intros s Hs. unfold py_eq_str. destruct (image_fp_type cam) as [t |];
      [| reflexivity].
    apply String.eqb_neq. intros ->. apply Hs. reflexivity. }
  unfold get_relative_fp, get_absolute_fp, get_undistorted_relative_fp,
    get_undistored_absolute_fp, get_file_name, has_undistorted_absolute_fp,
    get_absolute_fp, _get_relative_fp, _get_absolute_fp.
  rewrite (E _ Hname), (E _ Hrel), (E _ Habs). repeat split.
Qed.

Lemma unknown_mode_no_path_witness :
  get_relative_fp init_camera = Raise AssertionError
  /\ get_absolute_fp init_camera = Raise AssertionError
  /\ get_undistorted_relative_fp init_camera = Raise AssertionError
  /\ get_undistored_absolute_fp init_camera = Raise AssertionError
  /\ get_file_name init_camera = Raise AssertionError
  /\ has_undistorted_absolute_fp every_path_is_a_file init_camera
     = Ok false.
Proof.
  apply (unknown_mode_no_path every_path_is_a_file init_camera);
    discriminate.
Defined.

(** X18.  [has_undistorted_absolute_fp] never raises: it answers [True]
    exactly when the undistorted path resolves (mode known, fields set)
    and the resolved path is a file, and [False] otherwise. *)
Theorem has_undistorted_absolute_fp_total (isfile : string -> bool)
    (cam : Camera) :
  exists b : bool,
    has_undistorted_absolute_fp isfile cam = Ok b
    /\ (b = true <->
        exists fp,
          _get_absolute_fp cam (_undistorted_relative_fp cam)
            (_undistorted_absolute_fp cam) = Ok fp
          /\ isfile fp = true).
Proof.
  unfold has_undistorted_absolute_fp, _get_absolute_fp.
  destruct (py_eq_str (image_fp_type cam) IMAGE_FP_TYPE_NAME);
    [| destruct (py_eq_str (image_fp_type cam) IMAGE_FP_TYPE_RELATIVE);
       [| destruct (py_eq_str (image_fp_type cam) IMAGE_FP_TYPE_ABSOLUTE)]];
    destruct (image_dp cam) as [dp |];
    destruct (_undistorted_relative_fp cam) as [rel |];
    destruct (_undistorted_absolute_fp cam) as [abs |];
    cbn;
    first
      [ eexists; split; [reflexivity |];
        split;
        [ intros H; eexists; split; [reflexivity | exact H]
        | intros (fp & [= <-] & H); exact H ]
      | exists false; split; [reflexivity |];
        split; [discriminate | intros (fp & H & _); discriminate] ].
Qed.

(** X19.  Under the ABSOLUTE mode the two undistorted queries disagree:
    with an undistorted absolute path stored that is a file,
    [has_undistorted_absolute_fp] answers [True] while
    [get_undistored_absolute_fp] raises. *)
Theorem has_but_cannot_get_undistorted_absolute_fp
    (isfile : string -> bool) (cam : Camera) (fp : string)
    (Hmode : image_fp_type cam = Some IMAGE_FP_TYPE_ABSOLUTE)
    (Hfp : _undistorted_absolute_fp cam = Some fp)
    (Hfile : isfile fp = true) :
  has_undistorted_absolute_fp isfile cam = Ok true
  /\ get_undistored_absolute_fp cam = Raise AssertionError.
Proof.
  unfold has_undistorted_absolute_fp, get_undistored_absolute_fp,
    _get_absolute_fp.
  rewrite Hmode, Hfp. cbn. rewrite Hfile. split; reflexivity.
Qed.

Lemma has_but_cannot_get_undistorted_absolute_fp_witness :
  has_undistorted_absolute_fp every_path_is_a_file camera_by_absolute_path
    = Ok true
  /\ get_undistored_absolute_fp camera_by_absolute_path
     = Raise AssertionError.
Proof.
  exact (has_but_cannot_get_undistorted_absolute_fp every_path_is_a_file
           camera_by_absolute_path "/x/undistorted/y.png"
           eq_refl eq_refl eq_refl).
Defined.

(** X20.  Paths that are set are read back.  After [set_relative_fp] with
    the RELATIVE mode the relative path is returned as it is, and the
    absolute path is the image directory joined with it; with the NAME
    mode the file name of the path is returned, and the absolute path is
    the directory joined with that name; after [set_absolute_fp], under
    the ABSOLUTE mode, both queries return the absolute path and the
    image directory plays no part. *)
Theorem set_paths_then_get (cam : Camera) (fp : string) :
  let by_relative :=
    snd (set_relative_fp (Some fp) (Some IMAGE_FP_TYPE_RELATIVE) cam) in
  let by_name :=
    snd (set_relative_fp (Some fp) (Some IMAGE_FP_TYPE_NAME) cam) in
  let by_absolute :=
    snd ((set_relative_fp (_relative_fp cam) (Some IMAGE_FP_TYPE_ABSOLUTE) ;;
          set_absolute_fp (Some fp))%st cam) in
  get_relative_fp by_relative = Ok fp
  /\ get_relative_fp by_name = Ok (os_path_basename fp)
  /\ (forall dp, image_dp cam = Some dp ->
        get_absolute_fp by_relative = Ok (os_path_join dp fp)
        /\ get_absolute_fp by_name
           = Ok (os_path_join dp (os_path_basename fp)))
  /\ (image_dp cam = None ->
        get_absolute_fp by_relative = Raise AssertionError
        /\ get_absolute_fp by_name = Raise AssertionError)
  /\ get_relative_fp by_absolute = Ok fp
  /\ get_absolute_fp by_absolute = Ok fp.
Proof.
  cbv zeta. unfold get_relative_fp, get_absolute_fp, _get_relative_fp,
    _get_absolute_fp.
  cbn. repeat split;
    match goal with
    | H : image_dp cam = _ |- _ => rewrite H; reflexivity
    end.
Qed.

(** ** Names for the user interface *)

Lemma substring_length_le (n m : nat) (s : string) :
  (String.length (substring n m s) <= m)%nat.
Proof.
  revert m s. induction n as [| n IHn]; intros m s.
  - revert s. induction m as [| m IHm]; intros s.
    + destruct s; cbn; lia.
    + destruct s as [| c s]; cbn; [lia |]. specialize (IHm s). lia.
  - destruct s as [| c s]; cbn; [lia | apply IHn].
Qed.

Lemma substring_all (m : nat) (s : string) :
  (String.length s <= m)%nat -> substring 0 m s = s.
Proof.
  revert s. induction m as [| m IHm]; intros s Hs.
  - destruct s; [reflexivity | cbn in Hs; lia].
  - destruct s as [| c s]; [reflexivity |]. cbn. rewrite IHm;
      [reflexivity | cbn in Hs; lia].
Qed.

Lemma substring_prefix (m : nat) (s : string) :
  exists ext, s = (substring 0 m s ++ ext)%string.
Proof.
  revert s. induction m as [| m IHm]; intros s.
  - exists s. destruct s; reflexivity.
  - destruct s as [| c s]; [exists EmptyString; reflexivity |].
    destruct (IHm s) as (ext & E). exists ext. cbn. rewrite <- E.
    reflexivity.
Qed.

Lemma substring_suffix (n m : nat) (s : string) :
  (String.length s - n <= m)%nat ->
  exists pre, s = (pre ++ substring n m s)%string.
Proof.
  revert s. induction n as [| n IHn]; intros s Hs.
  - exists EmptyString. rewrite substring_all by lia. reflexivity.
  - destruct s as [| c s].
    + exists EmptyString. reflexivity.
    + destruct (IHn s) as (pre & E); [cbn in Hs; lia |].
      exists (String c pre). cbn. rewrite <- E. reflexivity.
Qed.

Lemma os_path_splitext_root_prefix (p : string) :
  exists ext, p = (os_path_splitext_root p ++ ext)%string.
Proof.
  unfold os_path_splitext_root. cbv zeta.
  destruct (_ && _).
  - apply substring_prefix.
  - exists EmptyString. induction p as [| c p IH]; cbn;
      [| rewrite <- IH]; reflexivity.
Qed.

Lemma append_assoc (a b c : string) :
  ((a ++ b) ++ c)%string = (a ++ (b ++ c))%string.
Proof. induction a as [| x a IH]; cbn; [| rewrite IH]; reflexivity. Qed.

(** X21.  [get_blender_obj_gui_str] returns at most 40 characters, cut
    out of the relative path in one piece (the end of the path without
    its extension); a path whose root has at most 40 characters is
    returned whole, extension apart.  It raises exactly when
    [get_relative_fp] does. *)
Theorem get_blender_obj_gui_str_spec (cam : Camera) :
  (forall name,
      get_blender_obj_gui_str cam = Ok name ->
      (String.length name <= 40)%nat
      /\ exists fp pre ext,
           get_relative_fp cam = Ok fp
           /\ fp = (pre ++ name ++ ext)%string
           /\ os_path_splitext_root fp = (pre ++ name)%string
           /\ ((String.length (os_path_splitext_root fp) <= 40)%nat ->
               pre = EmptyString))
  /\ (forall e,
         get_blender_obj_gui_str cam = Raise e
         <-> get_relative_fp cam = Raise e).
Proof.
  unfold get_blender_obj_gui_str. split.
  - intros name H. destruct (get_relative_fp cam) as [fp | |];
      try discriminate.
    cbn in H. injection H as <-. split; [apply substring_length_le |].
    unfold py_last. set (root := os_path_splitext_root fp).
    destruct (Nat.le_gt_cases (String.length root) 40) as [Hshort | Hlong].
    + replace (String.length root - 40)%nat with 0%nat by lia.
      rewrite substring_all by exact Hshort.
      destruct (os_path_splitext_root_prefix fp) as (ext & E). fold root in E.
      exists fp, EmptyString, ext. repeat split. exact E.
    + destruct (substring_suffix (String.length root - 40) 40 root)
        as (pre & E); [lia |].
      destruct (os_path_splitext_root_prefix fp) as (ext & E'). fold root in E'.
      exists fp, pre, ext. repeat split.
      * rewrite <- append_assoc, <- E. exact E'.
      * exact E.
      * intros Hle. unfold root in Hlong. lia.
  - intros e. destruct (get_relative_fp cam) as [fp | e' |]; cbn;
      split; intros H; try discriminate; exact H.
Qed.

Lemma get_blender_obj_gui_str_spec_witness :
  (String.length "eft/frame_000000000000000000000000000123" <= 40)%nat
  /\ exists fp pre ext,
       get_relative_fp camera_long_name = Ok fp
       /\ fp = (pre ++ "eft/frame_000000000000000000000000000123" ++ ext)%string
       /\ os_path_splitext_root fp
          = (pre ++ "eft/frame_000000000000000000000000000123")%string
       /\ ((String.length (os_path_splitext_root fp) <= 40)%nat ->
           pre = EmptyString).
Proof.
  apply (proj1 (get_blender_obj_gui_str_spec camera_long_name)).
  reflexivity.
Defined.

(** The extension is cut off; leading dots do not start one. *)
Example os_path_splitext_root_examples :
  os_path_splitext_root "sub/img.png" = "sub/img"%string
  /\ os_path_splitext_root "archive.tar.gz" = "archive.tar"%string
  /\ os_path_splitext_root "dir.d/name" = "dir.d/name"%string
  /\ os_path_splitext_root ".hidden" = ".hidden"%string
  /\ os_path_splitext_root "sub/..img" = "sub/..img"%string.
Proof. repeat split. Qed.

(** ** Depth maps: more on the unprojection *)

Lemma filtered_columns_decoded (isfile : string -> bool) (cam : Camera)
    (a : ndarray2) :
  depth_map_ready isfile cam a ->
  filtered_columns isfile cam =
    Ok (map (fun i => v0 (paired_ray cam a i)) (surviving a),
        map (fun i => v1 (paired_ray cam a i)) (surviving a),
        map (fun _ => 1) (surviving a),
        map (depth_at a) (surviving a)).
Proof.
  intros (Hdec & (Hh & Hw) & Hi & Hfy).
  unfold has_intrinsics in Hi. apply andb_true_iff in Hi.
  destruct Hi as [Hf Hpp].
  change (filtered_columns isfile cam)
    with (filtered_columns isfile
            (with_depth_map_semantic
               (Some DEPTH_MAP_WRT_CANONICAL_VECTORS) cam)).
  rewrite (filtered_columns_ready _ _ a).
  - reflexivity.
  - unfold unprojection_ready. repeat split; try assumption.
Qed.

Lemma scale_and_transform_unit (cam : Camera) (a : ndarray2)
    (l : list nat) :
  depth_map_semantic cam = Some DEPTH_MAP_WRT_UNIT_VECTORS ->
  scale_and_transform cam
    (map (fun i => v0 (paired_ray cam a i)) l)
    (map (fun i => v1 (paired_ray cam a i)) l)
    (map (fun _ => 1) l)
    (map (depth_at a) l)
  = Ok (map (unprojected_unit cam a) l).
Proof.
  intros Hsem. unfold scale_and_transform. rewrite Hsem.
  cbn [py_eq_str]. rewrite String.eqb_refl.
  replace (String.eqb DEPTH_MAP_WRT_UNIT_VECTORS
             DEPTH_MAP_WRT_CANONICAL_VECTORS) with false by reflexivity.
  cbn [rbind fst snd].
  rewrite !combine_map, (map_map _ (fun p => match p with
                                             | (x, y, z) => _
                                             end)).
  rewrite !map2_map.
  rewrite (map_map _ (fun _ : R => 1)), dstack4_map, !map_map.
  reflexivity.
Qed.

(** The points returned for a camera that is ready, under either
    semantic and for any positive sparsity. *)
Lemma convert_depth_map_to_world_coords_decoded (isfile : string -> bool)
    (cam : Camera) (a : ndarray2) (sparsity : Z) :
  depth_map_ready isfile cam a -> (0 < sparsity)%Z ->
  convert_depth_map_to_world_coords isfile cam sparsity
  = match scale_and_transform cam
            (map (fun i => v0 (paired_ray cam a i)) (surviving a))
            (map (fun i => v1 (paired_ray cam a i)) (surviving a))
            (map (fun _ => 1) (surviving a))
            (map (depth_at a) (surviving a)) with
    | Ok points => Ok (subsample sparsity points)
    | Raise e => Raise e
    | Unmodelled => Unmodelled
    end.
Proof.
  intros Hready Hk. rewrite convert_depth_map_to_world_coords_steps.
  apply Z.ltb_lt in Hk. rewrite Hk. cbn [rassert rbind].
  rewrite (filtered_columns_decoded isfile cam a Hready).
  cbn [rbind fst snd]. apply scale_and_transform_subsample.
Qed.

Lemma cam_to_world_distance (cam : Camera) (p : vec3) :
  is_orthogonal (_rotation_mat cam) ->
  vec3_norm2 (vec3_sub (cam_to_world cam p) (_center cam)) = vec3_norm2 p.
Proof.
  unfold cam_to_world, get_4x4_cam_to_world_mat, get_rotation_mat,
    get_camera_center, mat4_dot, vec4_dot, drop_hom, vec3_sub, vec3_norm2.
  destruct (_rotation_mat cam) as [a b c d e f g h i].
  destruct (_center cam) as [c0 c1 c2]. destruct p as [x y z].
  unfold is_orthogonal, mat3_mul, transpose, mat3_identity. cbn.
  intros [= R1 R2 R3 R4 R5 R6 R7 R8 R9]. nsatz.
Qed.

Lemma paired_ray_norm2_pos (cam : Camera) (a : ndarray2) (i : nat) :
  0 < vec3_norm2 (paired_ray cam a i).
Proof.
  unfold vec3_norm2, paired_ray, canonical_ray. cbv zeta. cbn [v0 v1 v2].
  match goal with
  | |- 0 < ?x * ?x + ?y * ?y + 1 * 1 => generalize x, y
  end.
  intros x y. nra.
Qed.

(** X22.  Under the unit-vector semantic the depth is the distance to the
    camera: the points returned are, for the pixels of positive depth in
    raster order (every k-th of them for a sparsity [k] other than 100),
    the images of [d / |ray| * ray]; when the rotation matrix is
    orthogonal each lies at distance [d] from the camera center. *)
Theorem unprojection_unit_vectors (isfile : string -> bool) (cam : Camera)
    (a : ndarray2) (sparsity : Z)
    (Hready : depth_map_ready isfile cam a)
    (Hsem : depth_map_semantic cam = Some DEPTH_MAP_WRT_UNIT_VECTORS)
    (Hk : (0 < sparsity)%Z) :
  convert_depth_map_to_world_coords isfile cam sparsity
    = Ok (map (unprojected_unit cam a) (subsample sparsity (surviving a)))
  /\ forall i : nat,
       In i (surviving a) ->
       0 < depth_at a i
       /\ (is_orthogonal (_rotation_mat cam) ->
           vec3_norm2 (vec3_sub (unprojected_unit cam a i) (_center cam))
           = depth_at a i * depth_at a i).
Proof.
  split.
  - rewrite (convert_depth_map_to_world_coords_decoded isfile cam a
               sparsity Hready Hk).
    rewrite (scale_and_transform_unit cam a _ Hsem), subsample_map.
    reflexivity.
  - intros i Hi. unfold surviving in Hi. apply filter_In in Hi.
    destruct Hi as [_ Hd]. apply Rltb_spec in Hd. split; [exact Hd |].
    intros Ho. unfold unprojected_unit.
    rewrite (cam_to_world_distance cam _ Ho).
    pose proof (paired_ray_norm2_pos cam a i) as Hn.
    set (ray := paired_ray cam a i) in *.
    assert (Hs : sqrt (vec3_norm2 ray) * sqrt (vec3_norm2 ray)
                 = vec3_norm2 ray) by (apply sqrt_sqrt; lra).
    pose proof (sqrt_lt_R0 _ Hn) as Hs0.
    set (s := sqrt (vec3_norm2 ray)) in *.
    unfold vec3_norm2, vec3_scale in *. cbn [v0 v1 v2].
    set (d := depth_at a i).
    transitivity (d * d * ((v0 ray * v0 ray + v1 ray * v1 ray
                            + v2 ray * v2 ray) / (s * s))).
    + field. lra.
    + rewrite <- Hs. field. lra.
Qed.

Lemma two_pixel_camera_unit_ready :
  depth_map_ready every_path_is_a_file two_pixel_camera_unit two_pixel_map.
Proof.
  unfold depth_map_ready, depth_map_decodes, shape_matches. repeat split.
  - exists "depth/0001.bin"%string, (fun _ => two_pixel_map).
    repeat split.
  - apply intrinsics_usable_aux. cbn.
    repeat split; try rewrite Rabs_pos_eq; lra.
  - cbn. lra.
Qed.

Lemma unprojection_unit_vectors_witness :
  convert_depth_map_to_world_coords every_path_is_a_file
    two_pixel_camera_unit 100
  = Ok (map (unprojected_unit two_pixel_camera_unit two_pixel_map)
          (subsample 100 (surviving two_pixel_map)))
  /\ forall i : nat,
       In i (surviving two_pixel_map) ->
       0 < depth_at two_pixel_map i
       /\ (is_orthogonal (_rotation_mat two_pixel_camera_unit) ->
           vec3_norm2
             (vec3_sub (unprojected_unit two_pixel_camera_unit
                          two_pixel_map i)
                (_center two_pixel_camera_unit))
           = depth_at two_pixel_map i * depth_at two_pixel_map i).
Proof.
  apply (unprojection_unit_vectors every_path_is_a_file
           two_pixel_camera_unit two_pixel_map 100
           two_pixel_camera_unit_ready).
  - reflexivity.
  - reflexivity.
Defined.

(** X23.  Under the canonical semantic the depth is the distance along
    the viewing axis: taken back to camera coordinates by [R (X - C)],
    with an orthogonal rotation matrix, the point made of position [i] is
    [d] times the canonical ray, so that its third coordinate is the
    depth [d] itself. *)
Theorem unprojection_canonical_depth_is_z (cam : Camera) (a : ndarray2)
    (i : nat)
    (Horth : is_orthogonal (_rotation_mat cam)) :
  np_dot (_rotation_mat cam)
    (vec3_sub (unprojected cam a i) (_center cam))
  = vec3_scale (depth_at a i) (paired_ray cam a i)
  /\ v2 (np_dot (_rotation_mat cam)
           (vec3_sub (unprojected cam a i) (_center cam)))
     = depth_at a i.
Proof.
  assert (E : np_dot (_rotation_mat cam)
                (vec3_sub (unprojected cam a i) (_center cam))
              = vec3_scale (depth_at a i) (paired_ray cam a i)).
  { unfold unprojected. fold (paired_ray cam a i).
    set (p := vec3_scale (depth_at a i) (paired_ray cam a i)).
    pose proof (np_dot_orthogonal_transpose (_rotation_mat cam) p Horth)
      as H.
    rewrite <- H at 2. f_equal.
    unfold cam_to_world, get_4x4_cam_to_world_mat, get_rotation_mat,
      get_camera_center, mat4_dot, vec4_dot, drop_hom, vec3_sub, np_dot,
      transpose.
    destruct (_rotation_mat cam), (_center cam), p. cbn. f_equal; ring. }
  split; [exact E |]. rewrite E.
  unfold vec3_scale, paired_ray, canonical_ray. cbn. ring.
Qed.

Lemma unprojection_canonical_depth_is_z_witness :
  v2 (np_dot (_rotation_mat two_pixel_camera)
        (vec3_sub (unprojected two_pixel_camera two_pixel_map 0)
           (_center two_pixel_camera)))
  = depth_at two_pixel_map 0.
Proof.
  apply (unprojection_canonical_depth_is_z two_pixel_camera two_pixel_map 0).
  unfold is_orthogonal, mat3_mul, mat3_identity. cbn. f_equal; ring.
Defined.

Lemma py_eq_int_neq (o : option Z) (n : Z) :
  o <> Some n -> py_eq_int o n = false.
Proof.
  intros H. destruct o as [k |]; [| reflexivity]. cbn.
  apply Z.eqb_neq. intros ->. apply H. reflexivity.
Qed.

(** X24.  Contract violations of the unprojection, for a depth map that
    decodes and a positive sparsity: a decoded shape other than the
    stored [(height, width)] (or an unset height or width), intrinsics
    that are not usable, and a semantic that is neither of the two
    constants each raise [AssertionError], in this order of precedence;
    the unknown semantic raises even when no pixel has a positive
    depth. *)
Theorem unprojection_contract_violations (isfile : string -> bool)
    (cam : Camera) (a : ndarray2) (sparsity : Z)
    (Hdec : depth_map_decodes isfile cam a)
    (Hk : (0 < sparsity)%Z) :
  (~ shape_matches cam a ->
     convert_depth_map_to_world_coords isfile cam sparsity
       = Raise AssertionError)
  /\ (shape_matches cam a -> has_intrinsics cam = false ->
        convert_depth_map_to_world_coords isfile cam sparsity
          = Raise AssertionError)
  /\ (depth_map_ready isfile cam a ->
        depth_map_semantic cam <> Some DEPTH_MAP_WRT_CANONICAL_VECTORS ->
        depth_map_semantic cam <> Some DEPTH_MAP_WRT_UNIT_VECTORS ->
        convert_depth_map_to_world_coords isfile cam sparsity
          = Raise AssertionError).
Proof.
  pose proof Hdec as (fp & cb & Hfp & Hfile & Hcb & Ha).
  assert (Hget : get_depth_map isfile cam = Ok (Some a)).
  { unfold get_depth_map. rewrite Hfp, Hfile, Hcb, Ha. reflexivity. }
  apply Z.ltb_lt in Hk.
  split; [| split].
  - intros Hshape. unfold convert_depth_map_to_world_coords.
    rewrite Hk, Hget. cbn [rassert rbind].
    destruct (py_eq_int (height cam) (Z.of_nat (nd_height a))) eqn:Eh;
      [| reflexivity].
    destruct (py_eq_int (width cam) (Z.of_nat (nd_width a))) eqn:Ew;
      [| reflexivity].
    exfalso. apply Hshape. unfold shape_matches, py_eq_int in *.
    destruct (height cam) as [h |]; [| discriminate].
    destruct (width cam) as [w |]; [| discriminate].
    apply Z.eqb_eq in Eh, Ew. subst. split; reflexivity.
  - intros (Hh & Hw) Hi. unfold convert_depth_map_to_world_coords.
    rewrite Hk, Hget. cbn [rassert rbind].
    rewrite Hh, Hw. cbn [py_eq_int]. rewrite !Z.eqb_refl.
    cbn [rassert rbind].
    unfold get_calibration_mat, check_calibration_mat.
    unfold has_intrinsics in Hi. rewrite Hi. reflexivity.
  - intros Hready Hc Hu.
    rewrite (convert_depth_map_to_world_coords_decoded isfile cam a
               sparsity Hready (proj1 (Z.ltb_lt _ _) Hk)).
    unfold scale_and_transform.
    assert (E : forall s, depth_map_semantic cam <> Some s ->
                          py_eq_str (depth_map_semantic cam) s = false).
    { intros s Hs. unfold py_eq_str.
      destruct (depth_map_semantic cam) as [t |]; [| reflexivity].
      apply String.eqb_neq. intros ->. apply Hs. reflexivity. }
    rewrite (E _ Hc), (E _ Hu). reflexivity.
Qed.

Lemma unprojection_contract_violations_witness :
  convert_depth_map_to_world_coords every_path_is_a_file
    (with_depth_map_semantic None two_pixel_camera) 100
  = Raise AssertionError.
Proof.
  assert (Hdec : depth_map_decodes every_path_is_a_file
                   (with_depth_map_semantic None two_pixel_camera)
                   two_pixel_map).
  { exists "depth/0001.bin"%string, (fun _ => two_pixel_map).
    repeat split. }
  apply (proj2 (proj2 (unprojection_contract_violations
                         every_path_is_a_file
                         (with_depth_map_semantic None two_pixel_camera)
                         two_pixel_map 100 Hdec eq_refl))).
  - split; [exact Hdec |].
    exact (proj2 two_pixel_camera_unit_ready).
  - discriminate.
  - discriminate.
Defined.

Lemma slice_from_length {A} (k skip : nat) (l : list A) :
  (skip < k)%nat ->
  List.length (slice_from k skip l)
  = ((List.length l + k - 1 - skip) / k)%nat.
Proof.
  intros Hs. revert skip Hs.
  induction l as [| x l IH]; intros skip Hs; cbn [slice_from List.length].
  - symmetry. apply Nat.div_small. lia.
  - destruct skip as [| skip]; cbn [List.length].
    + rewrite IH by lia.
      replace (S (List.length l) + k - 1 - 0)%nat
        with (List.length l + k - 1 - (k - 1) + 1 * k)%nat by lia.
      rewrite Nat.div_add by lia. lia.
    + rewrite IH by lia. f_equal. lia.
Qed.

Lemma filter_none {A} (f : A -> bool) (l : list A) :
  (forall x, In x l -> f x = false) -> filter f l = [].
Proof.
  induction l as [| x l IH]; intros H; cbn; [reflexivity |].
  rewrite (H x) by (left; reflexivity).
  apply IH. intros y Hy. apply H. right. exact Hy.
Qed.

Lemma surviving_length (a : ndarray2) :
  (List.length (surviving a) <= nd_height a * nd_width a)%nat.
Proof.
  unfold surviving.
  etransitivity; [apply filter_length_le |].
  rewrite length_seq. lia.
Qed.

(** X25.  How many points come back, for a camera that is ready under
    either semantic: with sparsity 100 one point per pixel of positive
    depth, with any other positive sparsity [k] the number of such pixels
    divided by [k], rounded up; never more than [height * width], and
    none when no depth is positive. *)
Theorem unprojection_point_count (isfile : string -> bool) (cam : Camera)
    (a : ndarray2) (sparsity : Z)
    (Hready : depth_map_ready isfile cam a)
    (Hsem : depth_map_semantic cam = Some DEPTH_MAP_WRT_CANONICAL_VECTORS
            \/ depth_map_semantic cam = Some DEPTH_MAP_WRT_UNIT_VECTORS)
    (Hk : (0 < sparsity)%Z) :
  exists points,
    convert_depth_map_to_world_coords isfile cam sparsity = Ok points
    /\ List.length points
       = (if (sparsity =? 100)%Z then List.length (surviving a)
          else (List.length (surviving a) + Z.to_nat sparsity - 1)
               / Z.to_nat sparsity)%nat
    /\ (List.length points <= nd_height a * nd_width a)%nat
    /\ ((forall x y, (x < nd_width a)%nat -> (y < nd_height a)%nat ->
                     nd_at a y x <= 0) ->
        points = []).
Proof.
  assert (Hlen : forall l : list nat,
             List.length (subsample sparsity l)
             = (if (sparsity =? 100)%Z then List.length l
                else (List.length l + Z.to_nat sparsity - 1)
                     / Z.to_nat sparsity)%nat).
  { intros l. unfold subsample, slice_step.
    destruct (sparsity =? 100)%Z; cbn [negb]; [reflexivity |].
    rewrite slice_from_length by lia. f_equal. lia. }
  assert (Hle : forall l : list nat,
             (List.length (subsample sparsity l) <= List.length l)%nat).
  { intros l. rewrite Hlen. destruct (sparsity =? 100)%Z; [lia |].
    assert (0 < Z.to_nat sparsity)%nat by lia.
    destruct (Nat.eq_dec (List.length l) 0) as [E0 | E0].
    - rewrite E0, Nat.div_small by lia. lia.
    - apply Nat.Div0.div_le_upper_bound. nia. }
  assert (E : exists f,
             convert_depth_map_to_world_coords isfile cam sparsity
             = Ok (map f (subsample sparsity (surviving a)))).
  { rewrite (convert_depth_map_to_world_coords_decoded isfile cam a
               sparsity Hready Hk).
    destruct Hsem as [Hsem | Hsem].
    - exists (unprojected cam a).
      rewrite (scale_and_transform_canonical cam a _ Hsem), subsample_map.
      reflexivity.
    - exists (unprojected_unit cam a).
      rewrite (scale_and_transform_unit cam a _ Hsem), subsample_map.
      reflexivity. }
  destruct E as (f & E). eexists. split; [exact E |].
  rewrite length_map. split; [apply Hlen | split].
  - pose proof (Hle (surviving a)). pose proof (surviving_length a). lia.
  - intros Hall.
    assert (Hnone : surviving a = []).
    { unfold surviving. apply filter_none. intros i Hi.
      apply in_seq in Hi. apply Rltb_false. unfold depth_at.
      apply Hall; unfold pixel_column, pixel_row.
      - apply Nat.mod_upper_bound. nia.
      - apply Nat.Div0.div_lt_upper_bound. lia. }
    rewrite Hnone. unfold subsample, slice_step.
    destruct (negb (sparsity =? 100)%Z); reflexivity.
Qed.

Lemma unprojection_point_count_witness :
  exists points,
    convert_depth_map_to_world_coords every_path_is_a_file
      two_pixel_camera_unit 2 = Ok points
    /\ List.length points
       = (if (2 =? 100)%Z then List.length (surviving two_pixel_map)
          else (List.length (surviving two_pixel_map) + Z.to_nat 2 - 1)
               / Z.to_nat 2)%nat
    /\ (List.length points
        <= nd_height two_pixel_map * nd_width two_pixel_map)%nat
    /\ ((forall x y,
            (x < nd_width two_pixel_map)%nat ->
            (y < nd_height two_pixel_map)%nat ->
            nd_at two_pixel_map y x <= 0) ->
        points = []).
Proof.
  apply (unprojection_point_count every_path_is_a_file
           two_pixel_camera_unit two_pixel_map 2
           two_pixel_camera_unit_ready).
  - right. reflexivity.
  - reflexivity.
Defined.

(** X26.  [get_depth_map] after [set_depth_map]: the decoder's array for
    the path when the path is a file, [None] when it is not.  The query
    raises [TypeError] exactly when no path is stored (as on a fresh
    camera), or the path is a file and no decoder is stored; a missing
    decoder goes unnoticed as long as the file is missing too. *)
Theorem get_depth_map_after_set (isfile : string -> bool) (cam : Camera) :
  (forall fp callback semantic,
      get_depth_map isfile
        (snd (set_depth_map (Some fp) (Some callback) semantic cam))
      = Ok (if isfile fp then Some (callback fp) else None))
  /\ (forall e,
         get_depth_map isfile cam = Raise e
         <-> e = TypeError
             /\ (depth_map_fp cam = None
                 \/ exists fp,
                      depth_map_fp cam = Some fp /\ isfile fp = true
                      /\ depth_map_callback cam = None))
  /\ (forall fp semantic,
         isfile fp = false ->
         get_depth_map isfile
           (snd (set_depth_map (Some fp) None semantic cam)) = Ok None).
Proof.
  split; [| split].
  - intros fp cb sem. unfold get_depth_map. cbn.
    destruct (isfile fp); reflexivity.
  - intros e. unfold get_depth_map.
    destruct (depth_map_fp cam) as [fp |].
    + destruct (isfile fp) eqn:Hf.
      * destruct (depth_map_callback cam) as [cb |]; split.
        -- discriminate.
        -- intros (_ & [H | (fp' & [= <-] & _ & H)]); discriminate.
        -- intros [= <-]. split; [reflexivity |]. right.
           exists fp. repeat split. exact Hf.
        -- intros (-> & _). reflexivity.
      * split; [discriminate |].
        intros (_ & [H | (fp' & [= <-] & H & _)]); [discriminate |].
        rewrite Hf in H. discriminate.
    + split.
      * intros [= <-]. split; [reflexivity | left; reflexivity].
      * intros (-> & _). reflexivity.
  - intros fp sem Hf. unfold get_depth_map. cbn. rewrite Hf. reflexivity.
Qed.

Lemma get_depth_map_after_set_witness :
  get_depth_map no_file
    (snd (set_depth_map (Some "depth/0001.bin"%string) None None
            init_camera)) = Ok None.
Proof.
  apply (proj2 (proj2 (get_depth_map_after_set no_file init_camera))).
  reflexivity.
Defined.

Lemma intrinsics_usable_witness :
  get_calibration_mat two_pixel_camera
    = Ok (_calibration_mat two_pixel_camera)
  /\ get_principal_point two_pixel_camera
     = Ok (m02 (_calibration_mat two_pixel_camera),
           m12 (_calibration_mat two_pixel_camera)).
Proof.
  apply (proj1 (proj2 (intrinsics_usable two_pixel_camera))).
  exact (proj1 (proj2 (proj2 two_pixel_camera_unit_ready))).
Defined.

Lemma set_principal_point_frame_witness :
  get_principal_point
    (snd (set_principal_point (320, 240) (camera_with_focal_length 500)))
  = Ok (320, 240).
Proof.
  apply (proj1 (proj2 (proj2 (proj2 (proj2 (proj2
           (set_principal_point_frame (camera_with_focal_length 500)
              320 240))))))).
  - unfold has_focal_length. cbn. apply Rltb_true. lra.
  - rewrite Rabs_pos_eq; lra.
  - rewrite Rabs_pos_eq; lra.
Defined.

Lemma set_paths_then_get_witness :
  get_absolute_fp
    (snd (set_relative_fp (Some "sub/img.png"%string)
            (Some IMAGE_FP_TYPE_RELATIVE) camera_by_name))
  = Ok (os_path_join "/data" "sub/img.png")
  /\ get_absolute_fp
       (snd (set_relative_fp (Some "sub/img.png"%string)
               (Some IMAGE_FP_TYPE_NAME) camera_by_name))
     = Ok (os_path_join "/data" (os_path_basename "sub/img.png")).
Proof.
  apply (proj1 (proj2 (proj2 (set_paths_then_get camera_by_name
                                "sub/img.png"))) "/data"%string).
  reflexivity.
Defined.

(** ** Field of view *)

(** X27.  With width and height set, their maximum positive and a
    positive focal length, [get_field_of_view] returns an angle [a]
    strictly between [0] and [pi] with
    [tan (a / 2) = max(width, height) / (2 * focal length)]; swapping
    width and height does not change it, and a longer focal length gives
    a smaller angle. *)
Theorem get_field_of_view_range (cam : Camera) (w h : Z)
    (Hw : width cam = Some w) (Hh : height cam = Some h)
    (Hmax : (0 < Z.max w h)%Z)
    (Hf : 0 < get_focal_length cam) :
  exists a,
    get_field_of_view cam = Ok a
    /\ 0 < a < PI
    /\ tan (a / 2) = IZR (Z.max w h) / (2 * get_focal_length cam)
    /\ (forall cam',
           width cam' = Some h -> height cam' = Some w ->
           get_focal_length cam' = get_focal_length cam ->
           get_field_of_view cam' = Ok a)
    /\ (forall cam' a',
           width cam' = Some w -> height cam' = Some h ->
           get_focal_length cam < get_focal_length cam' ->
           get_field_of_view cam' = Ok a' -> a' < a).
Proof.
  assert (Hm : 0 < IZR (Z.max w h)) by (apply IZR_lt; exact Hmax).
  assert (E : forall c w' h',
             width c = Some w' -> height c = Some h' ->
             0 < get_focal_length c ->
             get_field_of_view c
             = Ok (atan (IZR (Z.max w' h') / (get_focal_length c * 2)) * 2)).
  { intros c w' h' Hw' Hh' Hc. unfold get_field_of_view.
    rewrite Hw', Hh'.
    destruct (Req_dec_T (get_focal_length c * 2) 0) as [E0 | _]; [lra |].
    reflexivity. }
  set (f := get_focal_length cam) in *.
  set (x := IZR (Z.max w h) / (f * 2)).
  assert (Hx : 0 < x).
  { unfold x. apply Rdiv_lt_0_compat; lra. }
  exists (atan x * 2). split; [apply (E cam w h Hw Hh Hf) |].
  pose proof (atan_bound x) as [_ Hub].
  pose proof (atan_increasing 0 x Hx) as Hlb. rewrite atan_0 in Hlb.
  split; [lra |]. split; [| split].
  - replace (atan x * 2 / 2) with (atan x) by field.
    rewrite tan_atan. unfold x. field. lra.
  - intros cam' Hw' Hh' Hf'. rewrite (E cam' h w Hw' Hh') by lra.
    rewrite Hf', Z.max_comm. reflexivity.
  - intros cam' a' Hw' Hh' Hf' Ha'.
    rewrite (E cam' w h Hw' Hh') in Ha' by lra.
    injection Ha' as <-.
    assert (IZR (Z.max w h) / (get_focal_length cam' * 2) < x).
    { unfold x, Rdiv. apply Rmult_lt_compat_l; [exact Hm |].
      apply Rinv_lt_contravar; nra. }
    pose proof (atan_increasing _ _ H). lra.
Qed.

Lemma get_field_of_view_range_witness :
  exists a,
    get_field_of_view (camera_with_focal_length 500) = Ok a
    /\ 0 < a < PI
    /\ tan (a / 2)
       = IZR (Z.max 1000 500)
         / (2 * get_focal_length (camera_with_focal_length 500))
    /\ (forall cam',
           width cam' = Some 500%Z -> height cam' = Some 1000%Z ->
           get_focal_length cam'
           = get_focal_length (camera_with_focal_length 500) ->
           get_field_of_view cam' = Ok a)
    /\ (forall cam' a',
           width cam' = Some 1000%Z -> height cam' = Some 500%Z ->
           get_focal_length (camera_with_focal_length 500)
           < get_focal_length cam' ->
           get_field_of_view cam' = Ok a' -> a' < a).
Proof.
  apply (get_field_of_view_range (camera_with_focal_length 500)
           1000%Z 500%Z eq_refl eq_refl).
  - reflexivity.
  - unfold get_focal_length. cbn. lra.
Defined.

(** ** The two depth semantics side by side *)

(** X28.  The two semantics place a pixel on the same ray from the camera
    center: the point of the unit-vector semantic is the point of the
    canonical semantic pulled towards the center by the factor
    [1 / |ray|], which is at most [1]. *)
Theorem unit_point_on_canonical_ray (cam : Camera) (a : ndarray2)
    (i : nat) :
  let s := / sqrt (vec3_norm2 (paired_ray cam a i)) in
  0 < s <= 1
  /\ vec3_sub (unprojected_unit cam a i) (_center cam)
     = vec3_scale s (vec3_sub (unprojected cam a i) (_center cam)).
Proof.
  cbv zeta. pose proof (paired_ray_norm2_pos cam a i) as Hn.
  assert (H1 : 1 <= vec3_norm2 (paired_ray cam a i)).
  { unfold vec3_norm2, paired_ray, canonical_ray. cbv zeta.
    cbn [v0 v1 v2].
    match goal with
    | |- 1 <= ?x * ?x + ?y * ?y + 1 * 1 => generalize x, y
    end.
    intros x y. nra. }
  assert (Hs1 : 1 <= sqrt (vec3_norm2 (paired_ray cam a i))).
  { rewrite <- sqrt_1. apply sqrt_le_1; lra. }
  unfold unprojected_unit, unprojected. fold (paired_ray cam a i).
  set (ray := paired_ray cam a i) in *.
  set (r := sqrt (vec3_norm2 ray)) in *.
  split.
  - split.
    + apply Rinv_0_lt_compat. lra.
    + rewrite <- Rinv_1. apply Rinv_le_contravar; lra.
  - unfold cam_to_world, get_4x4_cam_to_world_mat, get_rotation_mat,
      get_camera_center, mat4_dot, vec4_dot, drop_hom, vec3_sub,
      vec3_scale, transpose.
    destruct (_rotation_mat cam), (_center cam), ray. cbn.
    f_equal; field; lra.
Qed.
